(** * Aria AI browser widgets: voice assistant and screenshot analyzer

    A shallow embedding of the two controller classes of the repository,
    [VoiceAssistant] (the voice assistant module) and [ScreenshotAnalyzer]
    (static/js/screenshot_analyzer.js), together with the properties of
    their event handlers.

    Each method becomes a computation in a small state-and-exception monad
    over the controller object, its part of the DOM and the platform
    objects it drives.  An [async] method is split at its [await] into the
    part that runs when it is called and the part that runs when the
    awaited promise settles. *)

From Stdlib Require Import List String Ascii Bool NArith ZArith QArith Lia.
Import ListNotations.

Set Implicit Arguments.
Set Warnings "-register-all".

(* ================================================================== *)
(** ** JavaScript values *)
(* ================================================================== *)

(** A JavaScript string is a sequence of UTF-16 code units. *)
Definition jsstring := list N.

(** The code units of an ASCII literal. *)
Definition lit (s : string) : jsstring :=
  map N_of_ascii (list_ascii_of_string s).

(** Code unit of the double quote, U+0022. *)
Definition dquote : N := 34%N.

Definition jsstring_eqb (a b : jsstring) : bool :=
  if list_eq_dec N.eq_dec a b then true else false.

(** The values a parsed JSON body and the controller's own object literals
    are made of.  An object is the list of its own properties. *)
Inductive jsval : Type :=
| JUndefined
| JNull
| JBool (b : bool)
| JNumber (q : Q)
| JString (s : jsstring)
| JArray (items : list jsval)
| JObject (props : list (jsstring * jsval)).

(** An exception object: [error.name] and [error.message]. *)
Record JsError : Type := mkError { err_name : jsstring; err_message : jsstring }.

Definition TypeError (msg : string) : JsError := mkError (lit "TypeError") (lit msg).
Definition InvalidStateError (msg : string) : JsError :=
  mkError (lit "InvalidStateError") (lit msg).
(** [new Error(msg)] *)
Definition Error (msg : string) : JsError := mkError (lit "Error") (lit msg).

Definition error_val (e : JsError) : jsval :=
  JObject [(lit "name", JString (err_name e)); (lit "message", JString (err_message e))].

(** ToBoolean. *)
Definition truthy (v : jsval) : bool :=
  match v with
  | JUndefined | JNull => false
  | JBool b => b
  | JNumber q => negb (Qnum q =? 0)%Z
  | JString s => match s with [] => false | _ :: _ => true end
  | JArray _ | JObject _ => true
  end.

(** [a || b] *)
Definition js_or (a b : jsval) : jsval := if truthy a then a else b.

(** What becomes of a value where the platform wants a string: the setter
    of [textContent], a substitution of a template literal.  A string is
    taken as it is; any other value is converted by the platform, and the
    result is kept as the conversion of that value. *)
Inductive domstring : Type :=
| Text (s : jsstring)
| Converted (v : jsval).

Definition ToString (v : jsval) : domstring :=
  match v with
  | JString s => Text s
  | _ => Converted v
  end.

Fixpoint lookup_prop (key : jsstring) (props : list (jsstring * jsval)) : option jsval :=
  match props with
  | [] => None
  | (k, v) :: rest => if jsstring_eqb k key then Some v else lookup_prop key rest
  end.

(** [v.key] for a key that no prototype defines: reading a property of
    [null] or [undefined] throws, a missing property reads [undefined]. *)
Definition get_prop (v : jsval) (key : string) : JsError + jsval :=
  match v with
  | JUndefined | JNull => inl (TypeError "Cannot read properties of null or undefined")
  | JObject props =>
      inr match lookup_prop (lit key) props with Some x => x | None => JUndefined end
  | _ => inr JUndefined
  end.


(* ------------------------------------------------------------------ *)
(** *** String.prototype.trim *)

(** WhiteSpace and LineTerminator code points of ECMAScript: TAB, LF, VT,
    FF, CR, SP, NBSP, the remaining Zs characters, LS, PS and the BOM. *)
Definition is_whitespace (c : N) : bool :=
  ((9 <=? c) && (c <=? 13) || (c =? 32) || (c =? 160) || (c =? 5760)
   || (8192 <=? c) && (c <=? 8202) || (c =? 8232) || (c =? 8233)
   || (c =? 8239) || (c =? 8287) || (c =? 12288) || (c =? 65279))%N.

Fixpoint trimStart (s : jsstring) : jsstring :=
  match s with
  | [] => []
  | c :: rest => if is_whitespace c then trimStart rest else s
  end.

Definition trimEnd (s : jsstring) : jsstring := rev (trimStart (rev s)).

Definition trim (s : jsstring) : jsstring := trimEnd (trimStart s).

(** A string made of white space only (the empty string included). *)
Definition whitespace_only (s : jsstring) : Prop := Forall (fun c => is_whitespace c = true) s.

(* ================================================================== *)
(** ** Platform calls and the network *)
(* ================================================================== *)

(** [new SpeechSynthesisUtterance(text)] with the attributes the code sets. *)
Record Utterance : Type := mkUtterance {
  utt_text : jsval;
  utt_rate : Q;
  utt_pitch : Q;
  utt_volume : Q
}.

(** The [init] argument of [fetch]: [body] is the value handed to
    [JSON.stringify]. *)
Record Request : Type := mkRequest {
  req_url : jsstring;
  req_method : jsstring;
  req_headers : list (jsstring * jsstring);
  req_body : jsval
}.

(** What a widget asks of the platform, in the order it asks. *)
Inductive Call : Type :=
| ConsoleError (args : list jsval)
| Alert (msg : jsstring)
| RecognitionStart
| RecognitionStop
| SynthesisCancel
| SynthesisSpeak (u : Utterance)
| Fetch (r : Request)
| GetDisplayMedia
| StopTracks
| SetTimeout (delay : Z).

Definition is_fetch (c : Call) : bool :=
  match c with Fetch _ => true | _ => false end.

Definition is_speak (c : Call) : bool :=
  match c with SynthesisSpeak _ => true | _ => false end.

(** The [Response] a [fetch] promise resolves to: [ok], [status] and what
    [response.json()] settles to. *)
Record Response : Type := mkResponse {
  resp_ok : bool;
  resp_status : Z;
  resp_json : JsError + jsval
}.

(** How the promise of [fetch] settles. *)
Inductive FetchOutcome : Type :=
| FetchRejected (e : JsError)
| FetchResolved (r : Response).

(* ================================================================== *)
(** ** The monad of handlers *)
(* ================================================================== *)

Inductive Completion (A : Type) : Type :=
| Normal (a : A)
| Throw (e : JsError).
Arguments Throw {A} e.

Definition M (S A : Type) : Type := S -> Completion A * S.

Definition ret {S A} (a : A) : M S A := fun s => (Normal a, s).

Definition bind {S A B} (c : M S A) (k : A -> M S B) : M S B :=
  fun s => match c s with
           | (Normal a, s') => k a s'
           | (Throw e, s') => (Throw e, s')
           end.

Definition throw {S A} (e : JsError) : M S A := fun s => (Throw e, s).

Definition gets {S A} (f : S -> A) : M S A := fun s => (Normal (f s), s).

Definition modify {S} (f : S -> S) : M S unit := fun s => (Normal tt, f s).

(** [try { body } catch (error) { handler error }] *)
Definition try_catch {S A} (body : M S A) (handler : JsError -> M S A) : M S A :=
  fun s => match body s with
           | (Normal a, s') => (Normal a, s')
           | (Throw e, s') => handler e s'
           end.

(** [try { body } finally { final }] where [final] itself does not throw. *)
Definition try_finally {S A} (body : M S A) (final : S -> S) : M S A :=
  fun s => let (r, s') := body s in (r, final s').

Definition when {S} (b : bool) (c : M S unit) : M S unit := if b then c else ret tt.

(** Lifts the result of a platform operation. *)
Definition lift_result {S A} (r : JsError + A) : M S A :=
  match r with inl e => throw e | inr a => ret a end.

Declare Scope js_scope.
Delimit Scope js_scope with js.
Notation "x <- c ;; k" := (bind c (fun x => k))
  (at level 61, c at next level, right associativity) : js_scope.
Notation "c ;; k" := (bind c (fun _ => k))
  (at level 61, right associativity) : js_scope.
Open Scope js_scope.

Definition exec {S A} (c : M S A) (s : S) : S := snd (c s).
Definition completion {S A} (c : M S A) (s : S) : Completion A := fst (c s).

Definition completes {A} (r : Completion A) : bool :=
  match r with Normal _ => true | Throw _ => false end.

(* ================================================================== *)
(** ** VoiceAssistant *)
(* ================================================================== *)

Module Voice.

(** The [SpeechRecognition] object the constructor configures.  [started]
    is the platform's side of it: a session is running. *)
Record SpeechRecognition : Type := mkRecognition {
  continuous : bool;
  interimResults : bool;
  lang : jsstring;
  started : bool
}.

(** [window.speechSynthesis]: the utterance being spoken and the
    utterances queued behind it. *)
Record SpeechSynthesis : Type := mkSynthesis {
  current : option Utterance;
  pending : list Utterance
}.

(** [synthesis.speaking] *)
Definition speaking (sy : SpeechSynthesis) : bool :=
  match current sy with Some _ => true | None => false end.

(** Children of [#transcriptArea]: the centred placeholder block of the
    initial markup, or a message [div] with its class and its text.  The
    text is a string: what [message.textContent = text] makes of [text]. *)
Inductive TranscriptNode : Type :=
| Placeholder
| Message (className : jsstring) (textContent : domstring).

Definition is_placeholder (n : TranscriptNode) : bool :=
  match n with Placeholder => true | Message _ _ => false end.

(** The elements the handlers touch. *)
Record Dom : Type := mkDom {
  voiceMainButton_listening : bool;     (* classList has 'listening' *)
  waveform_display : jsstring;
  voiceStatus_className : jsstring;
  voiceStatus_textContent : jsstring;
  startVoiceBtn_disabled : bool;
  stopVoiceBtn_disabled : bool;
  transcriptArea : list TranscriptNode;
  voicePanel_active : bool              (* classList has 'active' *)
}.

(** The controller, its DOM, and the calls it has made so far. *)
Record VoiceAssistant : Type := mkVoice {
  isListening : bool;
  isSpeaking : bool;
  recognition : option SpeechRecognition;
  synthesis : option SpeechSynthesis;
  conversation : list jsval;
  dom : Dom;
  calls : list Call
}.

Definition VM := M VoiceAssistant.

(* ------------------------------------------------------------------ *)
(** *** Field updates *)

Definition set_isListening (b : bool) (w : VoiceAssistant) : VoiceAssistant :=
  mkVoice b (isSpeaking w) (recognition w) (synthesis w) (conversation w) (dom w) (calls w).
Definition set_isSpeaking (b : bool) (w : VoiceAssistant) : VoiceAssistant :=
  mkVoice (isListening w) b (recognition w) (synthesis w) (conversation w) (dom w) (calls w).
Definition set_recognition (r : option SpeechRecognition) (w : VoiceAssistant) : VoiceAssistant :=
  mkVoice (isListening w) (isSpeaking w) r (synthesis w) (conversation w) (dom w) (calls w).
Definition set_synthesis (sy : option SpeechSynthesis) (w : VoiceAssistant) : VoiceAssistant :=
  mkVoice (isListening w) (isSpeaking w) (recognition w) sy (conversation w) (dom w) (calls w).
Definition set_conversation (c : list jsval) (w : VoiceAssistant) : VoiceAssistant :=
  mkVoice (isListening w) (isSpeaking w) (recognition w) (synthesis w) c (dom w) (calls w).
Definition set_dom (d : Dom) (w : VoiceAssistant) : VoiceAssistant :=
  mkVoice (isListening w) (isSpeaking w) (recognition w) (synthesis w) (conversation w) d (calls w).
Definition set_calls (l : list Call) (w : VoiceAssistant) : VoiceAssistant :=
  mkVoice (isListening w) (isSpeaking w) (recognition w) (synthesis w) (conversation w) (dom w) l.

Definition set_button_listening (b : bool) (d : Dom) : Dom :=
  mkDom b (waveform_display d) (voiceStatus_className d) (voiceStatus_textContent d)
        (startVoiceBtn_disabled d) (stopVoiceBtn_disabled d) (transcriptArea d)
        (voicePanel_active d).
Definition set_waveform_display (v : jsstring) (d : Dom) : Dom :=
  mkDom (voiceMainButton_listening d) v (voiceStatus_className d) (voiceStatus_textContent d)
        (startVoiceBtn_disabled d) (stopVoiceBtn_disabled d) (transcriptArea d)
        (voicePanel_active d).
Definition set_status_className (v : jsstring) (d : Dom) : Dom :=
  mkDom (voiceMainButton_listening d) (waveform_display d) v (voiceStatus_textContent d)
        (startVoiceBtn_disabled d) (stopVoiceBtn_disabled d) (transcriptArea d)
        (voicePanel_active d).
Definition set_status_textContent (v : jsstring) (d : Dom) : Dom :=
  mkDom (voiceMainButton_listening d) (waveform_display d) (voiceStatus_className d) v
        (startVoiceBtn_disabled d) (stopVoiceBtn_disabled d) (transcriptArea d)
        (voicePanel_active d).
Definition set_startBtn_disabled (b : bool) (d : Dom) : Dom :=
  mkDom (voiceMainButton_listening d) (waveform_display d) (voiceStatus_className d)
        (voiceStatus_textContent d) b (stopVoiceBtn_disabled d) (transcriptArea d)
        (voicePanel_active d).
Definition set_stopBtn_disabled (b : bool) (d : Dom) : Dom :=
  mkDom (voiceMainButton_listening d) (waveform_display d) (voiceStatus_className d)
        (voiceStatus_textContent d) (startVoiceBtn_disabled d) b (transcriptArea d)
        (voicePanel_active d).
Definition set_transcriptArea (l : list TranscriptNode) (d : Dom) : Dom :=
  mkDom (voiceMainButton_listening d) (waveform_display d) (voiceStatus_className d)
        (voiceStatus_textContent d) (startVoiceBtn_disabled d) (stopVoiceBtn_disabled d) l
        (voicePanel_active d).
Definition set_panel_active (b : bool) (d : Dom) : Dom :=
  mkDom (voiceMainButton_listening d) (waveform_display d) (voiceStatus_className d)
        (voiceStatus_textContent d) (startVoiceBtn_disabled d) (stopVoiceBtn_disabled d)
        (transcriptArea d) b.

Definition update_dom (f : Dom -> Dom) : VM unit :=
  modify (fun w => set_dom (f (dom w)) w).

Definition call (c : Call) : VM unit :=
  modify (fun w => set_calls (calls w ++ [c]) w).

(* ------------------------------------------------------------------ *)
(** *** Platform operations *)

Definition alert (msg : string) : VM unit := call (Alert (lit msg)).

Definition console_error (args : list jsval) : VM unit := call (ConsoleError args).

(** [this.recognition.start()]: starting a session that is already running
    throws [InvalidStateError]. *)
Definition recognition_start : VM unit :=
  r <- gets recognition;;
  match r with
  | None => throw (TypeError "Cannot read properties of null (reading 'start')")
  | Some rec =>
      call RecognitionStart;;
      if started rec
      then throw (InvalidStateError "recognition has already started")
      else modify (set_recognition
                     (Some (mkRecognition (continuous rec) (interimResults rec) (lang rec) true)))
  end.

(** [this.recognition.stop()]: asks the session to finish; the platform
    reports that it has with the [end] event. *)
Definition recognition_stop : VM unit := call RecognitionStop.

(** [this.synthesis.cancel()]: empties the queue and silences the current
    utterance. *)
Definition synthesis_cancel : VM unit :=
  call SynthesisCancel;;
  modify (set_synthesis (Some (mkSynthesis None []))).

(** [this.synthesis.speak(utterance)]: the utterance is spoken at once when
    nothing else is spoken or queued, and queued otherwise. *)
Definition synthesis_speak (sy : SpeechSynthesis) (u : Utterance) : SpeechSynthesis :=
  match current sy, pending sy with
  | None, [] => mkSynthesis (Some u) []
  | c, q => mkSynthesis c (q ++ [u])
  end.

(* ------------------------------------------------------------------ *)
(** *** Texts *)

Definition microphone : jsstring := [0xD83C; 0xDFA4]%N.        (* U+1F3A4 *)
Definition thought_balloon : jsstring := [0xD83D; 0xDCAD]%N.   (* U+1F4AD *)
Definition loudspeaker : jsstring := [0xD83D; 0xDD0A]%N.       (* U+1F50A *)

Definition fallback_reply : jsstring := lit "I understand. How can I help you further?".
Definition errorMsg : jsstring := lit "Sorry, I encountered an error. Please try again.".

(* ------------------------------------------------------------------ *)
(** *** Methods *)

(** [setupSpeechRecognition]: the recognition object, when the platform has
    a constructor for it. *)
Definition setupSpeechRecognition (SpeechRecognition_defined : bool) : VM unit :=
  if negb SpeechRecognition_defined
  then console_error [JString (lit "Speech recognition not supported")]
  else modify (set_recognition (Some (mkRecognition true true (lit "en-US") false))).

(** The markup [createUI] inserts. *)
Definition createUI : Dom :=
  mkDom false (lit "none") (lit "voice-status")
        ([10%N] ++ repeat 32%N 20
         ++ lit "Click " ++ [dquote] ++ lit "Start" ++ [dquote] ++ lit " to begin conversation"
         ++ [10%N] ++ repeat 32%N 16)
        false true [Placeholder] false.

(** [new VoiceAssistant()] on a platform with or without the two speech
    interfaces. *)
Definition constructor (SpeechRecognition_defined : bool)
    (speechSynthesis : option SpeechSynthesis) : VoiceAssistant :=
  exec (setupSpeechRecognition SpeechRecognition_defined)
       (mkVoice false false None speechSynthesis [] createUI []).

Definition startListening : VM unit :=
  r <- gets recognition;;
  match r with
  | None =>
      alert "Voice recognition is not supported in your browser. Please use Chrome or Edge."
  | Some _ =>
      modify (set_isListening true);;
      recognition_start;;
      update_dom (set_button_listening true);;
      update_dom (set_waveform_display (lit "flex"));;
      update_dom (set_status_className (lit "voice-status listening"));;
      update_dom (set_status_textContent (microphone ++ lit " Listening... Speak now"));;
      update_dom (set_startBtn_disabled true);;
      update_dom (set_stopBtn_disabled false)
  end.

Definition stopListening : VM unit :=
  modify (set_isListening false);;
  r <- gets recognition;;
  when (match r with Some _ => true | None => false end) recognition_stop;;
  update_dom (set_button_listening false);;
  update_dom (set_waveform_display (lit "none"));;
  update_dom (set_status_className (lit "voice-status"));;
  update_dom (set_status_textContent (lit "Voice assistant stopped"));;
  update_dom (set_startBtn_disabled false);;
  update_dom (set_stopBtn_disabled true).

Definition updateTranscript (text : jsstring) : VM unit :=
  update_dom (set_status_textContent (microphone ++ lit " " ++ [dquote] ++ text ++ [dquote])).

Definition addMessage (type : jsstring) (text : jsval) : VM unit :=
  area <- gets (fun w => transcriptArea (dom w));;
  when (existsb is_placeholder area) (update_dom (set_transcriptArea []));;
  update_dom (fun d => set_transcriptArea
                         (transcriptArea d
                          ++ [Message (lit "transcript-message " ++ type) (ToString text)]) d);;
  modify (fun w => set_conversation
                     (conversation w ++ [JObject [(lit "role", JString type); (lit "content", text)]])
                     w).

Definition speak (text : jsval) : VM unit :=
  sy <- gets synthesis;;
  match sy with
  | None => throw (TypeError "Cannot read properties of undefined (reading 'speaking')")
  | Some s =>
      when (speaking s) synthesis_cancel;;
      let utterance := mkUtterance text 1 1 1 in
      call (SynthesisSpeak utterance);;
      modify (fun w => set_synthesis (option_map (fun s' => synthesis_speak s' utterance)
                                                 (synthesis w)) w)
  end.

(** [utterance.onstart] *)
Definition utterance_onstart : VM unit :=
  modify (set_isSpeaking true);;
  update_dom (set_status_className (lit "voice-status speaking"));;
  update_dom (set_status_textContent (loudspeaker ++ lit " AI is speaking...")).

(** [utterance.onend] *)
Definition utterance_onend : VM unit :=
  modify (set_isSpeaking false);;
  l <- gets isListening;;
  when l (update_dom (set_status_className (lit "voice-status listening"));;
          update_dom (set_status_textContent (microphone ++ lit " Listening..."))).

(** The platform is done with an utterance and fires its [end] event.  When
    that utterance was the one being spoken, the next queued one, if any,
    takes its place. *)
Definition synthesis_advance (sy : SpeechSynthesis) : SpeechSynthesis :=
  match pending sy with
  | [] => mkSynthesis None []
  | u :: q => mkSynthesis (Some u) q
  end.

Definition utterance_ended (was_current : bool) : VM unit :=
  when was_current
       (modify (fun w => set_synthesis (option_map synthesis_advance (synthesis w)) w));;
  utterance_onend.

Definition chat_request (trimmed : jsstring) : Request :=
  mkRequest (lit "/api/voice-chat") (lit "POST")
            [(lit "Content-Type", lit "application/json")]
            (JObject [(lit "message", JString trimmed)]).

(** [processVoiceCommand], from the call to the first [await]: the result
    tells whether a request is now in flight. *)
Definition processVoiceCommand (transcript : jsstring) : VM bool :=
  let trimmed := trim transcript in
  match trimmed with
  | [] => ret false
  | _ :: _ =>
      addMessage (lit "user") (JString trimmed);;
      update_dom (set_status_className (lit "voice-status speaking"));;
      update_dom (set_status_textContent (thought_balloon ++ lit " AI is thinking..."));;
      call (Fetch (chat_request trimmed));;
      ret true
  end.

(** The body of the [try] once the promise of [fetch] has settled. *)
Definition chat_try (o : FetchOutcome) : VM unit :=
  match o with
  | FetchRejected e => throw e
  | FetchResolved response =>
      data <- lift_result (resp_json response);;
      field <- lift_result (get_prop data "response");;
      let aiResponse := js_or field (JString fallback_reply) in
      addMessage (lit "ai") aiResponse;;
      speak aiResponse
  end.

(** [processVoiceCommand], from the settled [fetch] to the end. *)
Definition processVoiceCommand_settled (o : FetchOutcome) : VM unit :=
  try_catch (chat_try o)
    (fun error =>
       console_error [JString (lit "Voice chat error:"); error_val error];;
       addMessage (lit "ai") (JString errorMsg);;
       speak (JString errorMsg)).

(** One recognition result: the transcript of its first alternative and
    its [isFinal] flag. *)
Record RecognitionResult : Type := mkResult {
  res_transcript : jsstring;
  res_isFinal : bool
}.

(** [recognition.onresult] for [event.results]. *)
Definition recognition_onresult (results : list RecognitionResult) : VM unit :=
  let transcript := List.concat (map res_transcript results) in
  updateTranscript transcript;;
  match rev results with
  | [] => throw (TypeError "Cannot read properties of undefined (reading 'isFinal')")
  | lastResult :: _ =>
      when (res_isFinal lastResult) (_ <- processVoiceCommand transcript;; ret tt)
  end.

(** [recognition.onerror] for [event.error]. *)
Definition recognition_onerror (error : jsstring) : VM unit :=
  console_error [JString (lit "Speech recognition error:"); JString error];;
  stopListening.

(** [recognition.onend] *)
Definition recognition_onend : VM unit :=
  l <- gets isListening;;
  when l recognition_start.

(** The platform ends the recognition session and fires [end]; the handler
    exists only on a controller that has a recognition object. *)
Definition session_ended : VM unit :=
  r <- gets recognition;;
  match r with
  | None => ret tt
  | Some rec =>
      modify (set_recognition
                (Some (mkRecognition (continuous rec) (interimResults rec) (lang rec) false)));;
      recognition_onend
  end.

(** The click listeners of [setupEventListeners]: on the main button, and
    on the document for a target inside or outside the container. *)
Definition mainButton_click : VM unit :=
  update_dom (fun d => set_panel_active (negb (voicePanel_active d)) d).

Definition document_click (target_in_container : bool) : VM unit :=
  active <- gets (fun w => voicePanel_active (dom w));;
  when (negb target_in_container && active) (update_dom (set_panel_active false)).

(** The events a page delivers to the controller. *)
Inductive Event : Type :=
| ClickStart
| ClickStop
| ClickMainButton
| ClickDocument (target_in_container : bool)
| RecognitionResultEv (results : list RecognitionResult)
| RecognitionErrorEv (error : jsstring)
| RecognitionEndEv
| ChatSettled (o : FetchOutcome)
| UtteranceStart
| UtteranceEnd (was_current : bool).

Definition handle (ev : Event) : VM unit :=
  match ev with
  | ClickStart => startListening
  | ClickStop => stopListening
  | ClickMainButton => mainButton_click
  | ClickDocument b => document_click b
  | RecognitionResultEv results => recognition_onresult results
  | RecognitionErrorEv e => recognition_onerror e
  | RecognitionEndEv => session_ended
  | ChatSettled o => processVoiceCommand_settled o
  | UtteranceStart => utterance_onstart
  | UtteranceEnd was_current => utterance_ended was_current
  end.

(** The controller after a sequence of events, whether or not a handler
    threw. *)
Fixpoint run (evs : list Event) (w : VoiceAssistant) : VoiceAssistant :=
  match evs with
  | [] => w
  | ev :: rest => run rest (exec (handle ev) w)
  end.

(** Roles of the entries of a conversation. *)
Definition entry_role (entry : jsval) : option jsval :=
  match entry with JObject props => lookup_prop (lit "role") props | _ => None end.

Definition entry_content (entry : jsval) : option jsval :=
  match entry with JObject props => lookup_prop (lit "content") props | _ => None end.

(** With every call forgotten, what is left is the state of the widget. *)
Definition state_of (w : VoiceAssistant) : VoiceAssistant := set_calls [] w.

(** No utterance waits behind another one. *)
Definition queue_empty (w : VoiceAssistant) : Prop :=
  match synthesis w with
  | Some sy => pending sy = []
  | None => True
  end.

(** [w'] is [w] with the entries [new] appended to its conversation. *)
Definition appended (w w' : VoiceAssistant) (new : list jsval) : Prop :=
  conversation w' = conversation w ++ new.

(** An entry [{ role, <field> }] whose role is one of [roles]. *)
Definition has_shape (field : string) (roles : list jsstring) (entry : jsval) : Prop :=
  exists (role : jsstring) (text : jsval),
    entry = JObject [(lit "role", JString role); (lit field, text)] /\ In role roles.

(** The shape [addMessage] gives an entry. *)
Definition code_entry_shape : jsval -> Prop :=
  has_shape "content" [lit "user"; lit "ai"].


End Voice.

(* ================================================================== *)
(** ** ScreenshotAnalyzer *)
(* ================================================================== *)

Module Capture.

(** The markup last assigned to [innerHTML] of [#analysisResultArea]:
    nothing yet, the spinner template, the analysis template or the error
    template.  The last two come with the string that the template literal
    substitutes into them.  That string is part of the markup as it stands,
    not escaped: the page shows what the browser parses from it, so tags in
    it become elements. *)
Inductive ResultArea : Type :=
| ResultEmpty
| ResultLoading
| ResultAnalysis (substituted : domstring)
| ResultError (substituted : jsstring).

Record Dom : Type := mkDom {
  screenshotModal_active : bool;        (* classList has 'active' *)
  screenshotButton_analyzing : bool;    (* classList has 'analyzing' *)
  screenshotPreviewArea : option jsstring;   (* [src] of the preview image *)
  analysisResultArea : ResultArea
}.

(** The callback a timer holds; the code only ever schedules one. *)
Inductive Task : Type := CaptureScreenTask.

Record ScreenshotAnalyzer : Type := mkAnalyzer {
  isAnalyzing : bool;
  captureInterval : option Z;
  dom : Dom;
  timers : list (Z * Task);
  calls : list Call
}.

Definition CM := M ScreenshotAnalyzer.

Definition set_dom (d : Dom) (w : ScreenshotAnalyzer) : ScreenshotAnalyzer :=
  mkAnalyzer (isAnalyzing w) (captureInterval w) d (timers w) (calls w).
Definition set_timers (t : list (Z * Task)) (w : ScreenshotAnalyzer) : ScreenshotAnalyzer :=
  mkAnalyzer (isAnalyzing w) (captureInterval w) (dom w) t (calls w).
Definition set_calls (l : list Call) (w : ScreenshotAnalyzer) : ScreenshotAnalyzer :=
  mkAnalyzer (isAnalyzing w) (captureInterval w) (dom w) (timers w) l.

Definition set_modal_active (b : bool) (d : Dom) : Dom :=
  mkDom b (screenshotButton_analyzing d) (screenshotPreviewArea d) (analysisResultArea d).
Definition set_button_analyzing (b : bool) (d : Dom) : Dom :=
  mkDom (screenshotModal_active d) b (screenshotPreviewArea d) (analysisResultArea d).
Definition set_previewArea (p : option jsstring) (d : Dom) : Dom :=
  mkDom (screenshotModal_active d) (screenshotButton_analyzing d) p (analysisResultArea d).
Definition set_resultArea (r : ResultArea) (d : Dom) : Dom :=
  mkDom (screenshotModal_active d) (screenshotButton_analyzing d) (screenshotPreviewArea d) r.

Definition update_dom (f : Dom -> Dom) : CM unit :=
  modify (fun w => set_dom (f (dom w)) w).

Definition call (c : Call) : CM unit :=
  modify (fun w => set_calls (calls w ++ [c]) w).

Definition alert (msg : jsstring) : CM unit := call (Alert msg).

Definition console_error (args : list jsval) : CM unit := call (ConsoleError args).

(** [setTimeout(callback, delay)] *)
Definition setTimeout (task : Task) (delay : Z) : CM unit :=
  call (SetTimeout delay);;
  modify (fun w => set_timers (timers w ++ [(delay, task)]) w).

(** What the platform answers to one capture.  After a grant the frame is
    drawn, the tracks are stopped and the canvas is encoded; an exception
    can come before or after the tracks are stopped. *)
Inductive Frame : Type :=
| DrawFailed (e : JsError)
| EncodeFailed (e : JsError)
| Encoded (imageDataUrl : jsstring).

Inductive DisplayMedia : Type :=
| Unsupported
| Rejected (e : JsError)
| Granted (frame : Frame).

Definition NotAllowedError : jsstring := lit "NotAllowedError".

Definition permission_denied_message : jsstring :=
  lit "Screen capture permission denied. Please allow screen sharing to use this feature.".

Definition unsupported_message : jsstring :=
  lit "Screen capture is not supported in your browser. Please use Chrome, Edge, or Firefox.".

Definition analysis_prompt : jsstring :=
  lit "Analyze this screenshot and provide detailed information about what you see. If it's aviation-related, provide technical insights. If it's code, explain it. If it's a diagram, describe the components and their relationships.".

Definition analysis_request (imageDataUrl : jsstring) : Request :=
  mkRequest (lit "/api/analyze-screenshot") (lit "POST")
            [(lit "Content-Type", lit "application/json")]
            (JObject [(lit "image", JString imageDataUrl); (lit "prompt", JString analysis_prompt)]).

(** The markup [createUI] inserts. *)
Definition createUI : Dom := mkDom false false None ResultEmpty.

(** [new ScreenshotAnalyzer()] *)
Definition constructor : ScreenshotAnalyzer := mkAnalyzer false None createUI [] [].

(** [analyzeScreenshot], from the call to the first [await]. *)
Definition analyzeScreenshot (imageDataUrl : jsstring) : CM unit :=
  update_dom (set_modal_active true);;
  update_dom (set_button_analyzing true);;
  update_dom (set_previewArea (Some imageDataUrl));;
  update_dom (set_resultArea ResultLoading);;
  call (Fetch (analysis_request imageDataUrl)).

(** The body of the [try] once the promise of [fetch] has settled. *)
Definition analysis_try (o : FetchOutcome) : CM unit :=
  match o with
  | FetchRejected e => throw e
  | FetchResolved response =>
      if negb (resp_ok response)
      then throw (Error "Analysis failed")
      else
        data <- lift_result (resp_json response);;
        field <- lift_result (get_prop data "analysis");;
        update_dom (set_resultArea
                      (ResultAnalysis
                         (ToString (js_or field (JString (lit "Analysis complete!"))))))
  end.

(** [analyzeScreenshot], from the settled [fetch] to the end. *)
Definition analyzeScreenshot_settled (o : FetchOutcome) : CM unit :=
  try_finally
    (try_catch (analysis_try o)
       (fun error =>
          console_error [JString (lit "Analysis error:"); error_val error];;
          update_dom (set_resultArea
                        (ResultError
                           match err_message error with
                           | [] => lit "Failed to analyze screenshot. Please try again."
                           | m => m
                           end))))
    (fun w => set_dom (set_button_analyzing false (dom w)) w).

(** [captureScreen].  The method reads and writes the widget only after its
    last [await], so one call is one step, given the platform's answer. *)
Definition captureScreen (p : DisplayMedia) : CM unit :=
  try_catch
    match p with
    | Unsupported => alert unsupported_message
    | Rejected e => call GetDisplayMedia;; throw e
    | Granted frame =>
        call GetDisplayMedia;;
        match frame with
        | DrawFailed e => throw e
        | EncodeFailed e => call StopTracks;; throw e
        | Encoded imageDataUrl => call StopTracks;; analyzeScreenshot imageDataUrl
        end
    end
    (fun error =>
       console_error [JString (lit "Screenshot error:"); error_val error];;
       if jsstring_eqb (err_name error) NotAllowedError
       then alert permission_denied_message
       else alert (lit "Failed to capture screenshot: " ++ err_message error)).

Definition closeModal : CM unit := update_dom (set_modal_active false).

Definition retake_delay : Z := 300.

Definition retakeScreenshot : CM unit :=
  closeModal;;
  setTimeout CaptureScreenTask retake_delay.

(** The oldest timer expires and its callback runs. *)
Definition timer_fires (p : DisplayMedia) : CM unit :=
  t <- gets timers;;
  match t with
  | [] => ret tt
  | (_, CaptureScreenTask) :: rest =>
      modify (set_timers rest);;
      captureScreen p
  end.

(** The [click] listener of the floating button. *)
Definition screenshotButton_click (p : DisplayMedia) : CM unit := captureScreen p.

(** The [keydown] listener: Ctrl + Shift + S. *)
Definition document_keydown (ctrlKey shiftKey : bool) (key : jsstring) (p : DisplayMedia)
  : CM unit :=
  when (ctrlKey && shiftKey && jsstring_eqb key (lit "S")) (captureScreen p).

(** A summary of the modal for the examples: hidden, or open with the
    spinner, the analysis template or the error template in its result
    area. *)
Inductive Shown : Type := Idle | Analyzing | ResultShown | ErrorShown.

Definition widget_state (w : ScreenshotAnalyzer) : Shown :=
  if screenshotModal_active (dom w)
  then match analysisResultArea (dom w) with
       | ResultEmpty => Idle
       | ResultLoading => Analyzing
       | ResultAnalysis _ => ResultShown
       | ResultError _ => ErrorShown
       end
  else Idle.

(** The image and the result a visible modal displays. *)
Definition displayed (w : ScreenshotAnalyzer) : option (option jsstring * ResultArea) :=
  if screenshotModal_active (dom w)
  then Some (screenshotPreviewArea (dom w), analysisResultArea (dom w))
  else None.

(** Following the words of the specification: [retake()] is [close()],
    then the fixed delay, then [triggerCapture()]. *)
Definition retake_spec (p : DisplayMedia) : CM unit :=
  closeModal;;
  captureScreen p.

(** The calls one [captureScreen] makes, given the platform's answer. *)
Definition capture_calls (p : DisplayMedia) : list Call :=
  calls (exec (captureScreen p) constructor).

End Capture.

(* ================================================================== *)
(** ** Sample controllers and inputs *)
(* ================================================================== *)

Module Samples.
Import Voice.

(** A controller on a platform with both speech interfaces, and the same
    one with the panel opened and listening started. *)
Definition fresh_voice : VoiceAssistant :=
  constructor true (Some (mkSynthesis None [])).

Definition listening_voice : VoiceAssistant :=
  run [ClickMainButton; ClickStart] fresh_voice.

(** A controller on a platform without speech recognition. *)
Definition deaf_voice : VoiceAssistant :=
  constructor false (Some (mkSynthesis None [])).

(** The user says hello; the recogniser pads the transcript. *)
Definition hello_results : list RecognitionResult :=
  [mkResult (lit " hello ") true].

Definition user_entry (text : jsstring) : jsval :=
  JObject [(lit "role", JString (lit "user")); (lit "content", JString text)].

Definition ai_entry (text : jsval) : jsval :=
  JObject [(lit "role", JString (lit "ai")); (lit "content", text)].

(** A 200 response carrying a reply, and a 500 response carrying the
    error body of the backend. *)
Definition hi_there : Response :=
  mkResponse true 200 (inr (JObject [(lit "response", JString (lit "Hi there!"))])).

Definition server_error : Response :=
  mkResponse false 500 (inr (JObject [(lit "error", JString (lit "Internal Server Error"))])).

(** The listening controller while the reply to hello is being spoken. *)
Definition speaking_voice : VoiceAssistant :=
  run [RecognitionResultEv hello_results; ChatSettled (FetchResolved hi_there); UtteranceStart]
      listening_voice.

(** The rejection of [getDisplayMedia] when the user declines. *)
Definition permission_denied : JsError :=
  mkError Capture.NotAllowedError (lit "Permission denied").

Definition first_image : jsstring := lit "data:image/png;base64,AAAA".
Definition second_image : jsstring := lit "data:image/png;base64,BBBB".

(** An analyzer whose modal shows the analysis of [first_image]. *)
Definition result_shown : Capture.ScreenshotAnalyzer :=
  exec (Capture.analyzeScreenshot_settled
          (FetchResolved
             (mkResponse true 200
                (inr (JObject [(lit "analysis", JString (lit "A cockpit."))])))))
       (exec (Capture.captureScreen (Capture.Granted (Capture.Encoded first_image)))
             Capture.constructor).

End Samples.

(* ================================================================== *)
(** ** Views of the widgets used by the invariants *)
(* ================================================================== *)

Module VoiceViews.
Import Voice.

(** The controller after the body of [addMessage(type, text)]. *)
Definition push_message (type : jsstring) (text : jsval) (w : VoiceAssistant)
  : VoiceAssistant :=
  set_conversation
    (conversation w ++ [JObject [(lit "role", JString type); (lit "content", text)]])
    (set_dom
       (set_transcriptArea
          ((if existsb is_placeholder (transcriptArea (dom w))
            then [] else transcriptArea (dom w))
           ++ [Message (lit "transcript-message " ++ type) (ToString text)])
          (dom w)) w).

(** The outcomes of the request on which the [try] block throws before it
    appends anything: a rejected [fetch], a body that does not parse, and a
    body that parses to [null]. *)
Definition chat_fails (o : FetchOutcome) : bool :=
  match o with
  | FetchRejected _ => true
  | FetchResolved r =>
      match resp_json r with
      | inl _ => true
      | inr JNull | inr JUndefined => true
      | inr _ => false
      end
  end.

(** The message [div] that [addMessage] makes for an entry: the role
    follows ["transcript-message "] in the class, and the text is the
    string made of the content. *)
Definition node_of_entry (entry : jsval) : list TranscriptNode :=
  match entry_role entry, entry_content entry with
  | Some (JString role), Some content =>
      [Message (lit "transcript-message " ++ role) (ToString content)]
  | _, _ => []
  end.

(** The transcript area shows the conversation: it is the placeholder
    alone while nothing has been said, and afterwards one message [div]
    per entry, in order. *)
Definition in_sync (w : VoiceAssistant) : Prop :=
  (conversation w = [] /\ transcriptArea (dom w) = [Placeholder])
  \/ (transcriptArea (dom w) = flat_map node_of_entry (conversation w)
      /\ List.length (transcriptArea (dom w)) = List.length (conversation w)
      /\ existsb is_placeholder (transcriptArea (dom w)) = false).

(** The four controls that [startListening] and [stopListening] set. *)
Definition controls (d : Dom) : bool * jsstring * bool * bool :=
  (voiceMainButton_listening d, waveform_display d,
   startVoiceBtn_disabled d, stopVoiceBtn_disabled d).

Definition controls_listening : bool * jsstring * bool * bool :=
  (true, lit "flex", true, false).

Definition controls_stopped : bool * jsstring * bool * bool :=
  (false, lit "none", false, true).

(** What neither the chat handlers nor [speak] ever write. *)
Definition kept (w : VoiceAssistant)
  : bool * option SpeechRecognition * (bool * jsstring * bool * bool) :=
  (isListening w, recognition w, controls (dom w)).

(** The controls are in one of their two settings. *)
Definition controls_ok (w : VoiceAssistant) : Prop :=
  controls (dom w) = controls_listening \/ controls (dom w) = controls_stopped.

(** A controller without a recognition object that is not listening. *)
Definition deaf (w : VoiceAssistant) : Prop :=
  kept w = (false, None, controls_stopped).

(** The synthesiser exists and holds no queued utterance. *)
Definition holds_at_most_one (w : VoiceAssistant) : Prop :=
  exists sy, synthesis w = Some sy /\ pending sy = [].

(** The calls made since [w], in [w']. *)
Definition calls_since (w w' : VoiceAssistant) : list Call :=
  skipn (List.length (calls w)) (calls w').

End VoiceViews.

Module CaptureLoop.
Import Capture.

(** The events a page delivers to the analyzer; a capture comes with the
    platform's answer to it. *)
Inductive Event : Type :=
| ClickButton (p : DisplayMedia)
| Keydown (ctrlKey shiftKey : bool) (key : jsstring) (p : DisplayMedia)
| AnalysisSettled (o : FetchOutcome)
| ClickClose
| ClickRetake
| TimerFires (p : DisplayMedia).

Definition handle (ev : Event) : CM unit :=
  match ev with
  | ClickButton p => screenshotButton_click p
  | Keydown c s k p => document_keydown c s k p
  | AnalysisSettled o => analyzeScreenshot_settled o
  | ClickClose => closeModal
  | ClickRetake => retakeScreenshot
  | TimerFires p => timer_fires p
  end.

Fixpoint run (evs : list Event) (w : ScreenshotAnalyzer) : ScreenshotAnalyzer :=
  match evs with
  | [] => w
  | ev :: rest => run rest (exec (handle ev) w)
  end.

(** The result area holds an analysis or an error block. *)
Definition is_settled_block (r : ResultArea) : bool :=
  match r with
  | ResultAnalysis _ | ResultError _ => true
  | ResultEmpty | ResultLoading => false
  end.

(** While there is no preview image the modal is closed and shows no
    spinner; once there is one, the result area is not empty, and it shows
    the spinner only while the button pulses. *)
Definition modal_filled (d : Dom) : bool :=
  match screenshotPreviewArea d, analysisResultArea d with
  | None, ResultLoading => false
  | None, _ => negb (screenshotModal_active d)
  | Some _, ResultEmpty => false
  | Some _, ResultLoading => screenshotButton_analyzing d
  | Some _, (ResultAnalysis _ | ResultError _) => true
  end.

Definition calls_since (w w' : ScreenshotAnalyzer) : list Call :=
  skipn (List.length (calls w)) (calls w').

(** The shape of the widget after a settled analysis: the result area holds
    a block [r], the button no longer pulses, and at most an error was
    logged. *)
Definition settled_to (r : ResultArea) (log : list Call) (w : ScreenshotAnalyzer)
  : ScreenshotAnalyzer :=
  mkAnalyzer (isAnalyzing w) (captureInterval w)
             (mkDom (screenshotModal_active (dom w)) false
                    (screenshotPreviewArea (dom w)) r)
             (timers w) (calls w ++ log).

(** The error block for a caught error and the calls logged with it. *)
Definition error_block (e : JsError) : ResultArea :=
  ResultError match err_message e with
              | [] => lit "Failed to analyze screenshot. Please try again."
              | m => m
              end.

Definition error_log (e : JsError) : list Call :=
  [ConsoleError [JString (lit "Analysis error:"); error_val e]].

(** What every reachable analyzer satisfies. *)
Definition analyzer_ok (w : ScreenshotAnalyzer) : Prop :=
  modal_filled (dom w) = true /\ isAnalyzing w = false /\ captureInterval w = None.

End CaptureLoop.

(* ================================================================== *)
(** ** Properties of [trim] *)
(* ================================================================== *)

Section Trim.

Lemma trimStart_whitespace_only (s : jsstring) :
  whitespace_only s -> trimStart s = [].
Proof.
  induction 1 as [|c rest Hc _ IH]; simpl.
  - reflexivity.
  - rewrite Hc. exact IH.
Qed.

Lemma trimStart_empty_inv (s : jsstring) :
  trimStart s = [] -> whitespace_only s.
Proof.
  induction s as [|c rest IH]; simpl; intros H.
  - constructor.
  - destruct (is_whitespace c) eqn:Hc.
    + constructor; [exact Hc | exact (IH H)].
    + discriminate H.
Qed.

(** What [trimStart] leaves does not begin with white space. *)
Lemma trimStart_head (s : jsstring) (c : N) (rest : jsstring) :
  trimStart s = c :: rest -> is_whitespace c = false.
Proof.
  induction s as [|d s' IH]; simpl; intros H.
  - discriminate H.
  - destruct (is_whitespace d) eqn:Hd.
    + exact (IH H).
    + injection H as <- _. exact Hd.
Qed.

Lemma whitespace_only_rev (s : jsstring) :
  whitespace_only s -> whitespace_only (rev s).
Proof.
  unfold whitespace_only. rewrite !Forall_forall.
  intros H c Hin. apply H. apply in_rev. exact Hin.
Qed.

Lemma trim_whitespace_only (s : jsstring) :
  whitespace_only s -> trim s = [].
Proof.
  intros H. unfold trim, trimEnd.
  rewrite (trimStart_whitespace_only H). reflexivity.
Qed.

Lemma trim_empty_inv (s : jsstring) :
  trim s = [] -> whitespace_only s.
Proof.
  unfold trim, trimEnd. intros H.
  assert (Hr : trimStart (rev (trimStart s)) = []).
  { rewrite <- (rev_involutive (trimStart (rev (trimStart s)))). rewrite H. reflexivity. }
  apply trimStart_empty_inv in Hr. apply whitespace_only_rev in Hr.
  rewrite rev_involutive in Hr.
  destruct (trimStart s) as [|c rest] eqn:Hs.
  - apply trimStart_empty_inv. exact Hs.
  - apply trimStart_head in Hs. inversion Hr; congruence.
Qed.

(** [!trimmed] holds exactly for the strings of white space. *)
Lemma trim_empty_iff (s : jsstring) : trim s = [] <-> whitespace_only s.
Proof. split; [apply trim_empty_inv | apply trim_whitespace_only]. Qed.

Example trim_hello :
  trim (lit "  hello " ++ [10; 160]%N) = lit "hello".
Proof. reflexivity. Qed.

Example trim_keeps_inner_space : trim (lit " a b ") = lit "a b".
Proof. reflexivity. Qed.

End Trim.

(* ================================================================== *)
(** ** Properties of the voice assistant *)
(* ================================================================== *)

Section VoiceProperties.

Import Voice Samples.

Example listening_voice_flags :
  isListening listening_voice = true
  /\ option_map started (recognition listening_voice) = Some true
  /\ calls listening_voice = [RecognitionStart]
  /\ stopVoiceBtn_disabled (dom listening_voice) = false.
Proof. repeat apply conj; vm_compute; reflexivity. Qed.

(* ------------------------------------------------------------------ *)
(** *** Final results of white space *)

(** C3, as the code has it.  The handler of a result event passes on the
    join of the transcripts of all the results the event carries.  When the
    last result is final and that join is empty or made of white space
    only, the event is ignored: [processVoiceCommand] returns at once and
    leaves the controller, its DOM and its list of calls exactly as they
    were, so no conversation entry is appended and no request is issued;
    and the whole [onresult] handler changes nothing but the live
    transcript shown in the status line. *)
Theorem whitespace_final_result_ignored
    (results : list RecognitionResult) (lastResult : RecognitionResult)
    (earlier : list RecognitionResult) (w : VoiceAssistant) :
  results = earlier ++ [lastResult] ->
  res_isFinal lastResult = true ->
  whitespace_only (List.concat (map res_transcript results)) ->
  let transcript := List.concat (map res_transcript results) in
  processVoiceCommand transcript w = (Normal false, w)
  /\ recognition_onresult results w
     = (Normal tt, exec (updateTranscript transcript) w)
  /\ let w' := exec (recognition_onresult results) w in
     conversation w' = conversation w
     /\ calls w' = calls w
     /\ isListening w' = isListening w
     /\ isSpeaking w' = isSpeaking w
     /\ voiceStatus_className (dom w') = voiceStatus_className (dom w)
     /\ transcriptArea (dom w') = transcriptArea (dom w).
Proof.
  intros Hres Hfinal Hws transcript.
  assert (Hcmd : forall v, processVoiceCommand transcript v = (Normal false, v)).
  { intros v. unfold processVoiceCommand. fold transcript in Hws.
    rewrite (trim_whitespace_only Hws). reflexivity. }
  assert (Hon : recognition_onresult results w
                = (Normal tt, exec (updateTranscript transcript) w)).
  { unfold recognition_onresult. fold transcript.
    replace (rev results) with (lastResult :: rev earlier)
      by (rewrite Hres, rev_app_distr; reflexivity).
    rewrite Hfinal. unfold when, bind, exec.
    destruct (updateTranscript transcript w) as [[[]|e] v] eqn:Hu.
    - rewrite Hcmd. reflexivity.
    - unfold updateTranscript, update_dom, modify in Hu. discriminate Hu. }
  split; [apply Hcmd|]. split; [exact Hon|].
  unfold exec at 1. cbv zeta. rewrite Hon. simpl.
  repeat split.
Qed.

Lemma whitespace_final_result_ignored_witness :
  let results := [mkResult (lit "  ") false; mkResult [9; 160]%N true] in
  processVoiceCommand (List.concat (map res_transcript results)) listening_voice
  = (Normal false, listening_voice)
  /\ calls (exec (recognition_onresult results) listening_voice) = calls listening_voice.
Proof.
  pose proof (@whitespace_final_result_ignored
                [mkResult (lit "  ") false; mkResult [9; 160]%N true]
                (mkResult [9; 160]%N true) [mkResult (lit "  ") false]
                listening_voice eq_refl eq_refl) as H.
  assert (Hws : whitespace_only
                  (List.concat (map res_transcript
                     [mkResult (lit "  ") false; mkResult [9; 160]%N true]))).
  { repeat constructor. }
  destruct (H Hws) as [H1 [_ [_ [H2 _]]]].
  split; [exact H1 | exact H2].
Defined.


(** C3, as the specification words it, fails when the blank result is not
    the first of its session: after the final result "hello", a final
    result of two spaces has a text of white space only, yet the join
    "hello  " is what the handler trims and passes on, so a user entry is
    appended, the status line leaves the listening class for the thinking
    one, and a request is posted. *)
Lemma blank_final_result_after_speech_is_sent :
  let blank := mkResult (lit "  ") true in
  let results := [mkResult (lit "hello") true; blank] in
  let w' := exec (recognition_onresult results) listening_voice in
  res_isFinal blank = true
  /\ trim (res_transcript blank) = []
  /\ conversation listening_voice = []
  /\ conversation w' = [user_entry (lit "hello")]
  /\ calls w' = calls listening_voice ++ [Fetch (chat_request (lit "hello"))]
  /\ voiceStatus_className (dom listening_voice) = lit "voice-status listening"
  /\ voiceStatus_className (dom w') = lit "voice-status speaking"
  /\ voiceStatus_textContent (dom w') = thought_balloon ++ lit " AI is thinking...".
Proof. cbv zeta. repeat apply conj; vm_compute; reflexivity. Qed.

(* ------------------------------------------------------------------ *)
(** *** Final results with content *)

(** C9.  For a final transcript whose trimmed content is not empty, the
    user entry appended to the conversation and the [message] field of the
    body posted to [/api/voice-chat] both carry the trimmed transcript, not
    the raw one; exactly one entry and one request are added. *)
Theorem final_transcript_sent_trimmed (transcript : jsstring) (w : VoiceAssistant) :
  trim transcript <> [] ->
  let w' := exec (processVoiceCommand transcript) w in
  completion (processVoiceCommand transcript) w = Normal true
  /\ conversation w' = conversation w ++ [user_entry (trim transcript)]
  /\ calls w' = calls w ++ [Fetch (chat_request (trim transcript))]
  /\ req_url (chat_request (trim transcript)) = lit "/api/voice-chat"
  /\ req_method (chat_request (trim transcript)) = lit "POST"
  /\ get_prop (req_body (chat_request (trim transcript))) "message"
     = inr (JString (trim transcript)).
Proof.
  intros Hne. unfold completion, exec, processVoiceCommand.
  destruct (trim transcript) as [|c rest] eqn:Ht; [contradiction|].
  destruct (existsb is_placeholder (transcriptArea (dom w))) eqn:Hp;
    unfold addMessage, bind, gets, when, update_dom, call, modify, ret;
    rewrite Hp; repeat split.
Qed.

Lemma final_transcript_sent_trimmed_witness :
  trim (lit " hello ") <> lit " hello "
  /\ conversation (exec (processVoiceCommand (lit " hello ")) listening_voice)
     = [user_entry (lit "hello")]
  /\ calls (exec (processVoiceCommand (lit " hello ")) listening_voice)
     = [RecognitionStart; Fetch (chat_request (lit "hello"))].
Proof.
  assert (Hne : trim (lit " hello ") <> []) by (vm_compute; discriminate).
  destruct (@final_transcript_sent_trimmed (lit " hello ") listening_voice Hne)
    as [_ [Hconv [Hcalls _]]].
  split; [vm_compute; discriminate|].
  split; [exact Hconv | exact Hcalls].
Defined.

(** The same through the [onresult] handler: the transcript is the join of
    all results of the event. *)
Lemma onresult_final_sends_trimmed :
  let w' := exec (recognition_onresult hello_results) listening_voice in
  conversation w' = [user_entry (lit "hello")]
  /\ calls w' = [RecognitionStart; Fetch (chat_request (lit "hello"))]
  /\ voiceStatus_textContent (dom w') = thought_balloon ++ lit " AI is thinking...".
Proof. repeat apply conj; vm_compute; reflexivity. Qed.

(* ------------------------------------------------------------------ *)
(** *** Starting and stopping *)

(** C10.  [startListening] on a controller without a recognition object
    shows the alert and does nothing else: the controller, its flags and
    its DOM are unchanged, and the only call made is the [alert]. *)
Theorem start_without_recognition_is_atomic (w : VoiceAssistant) :
  recognition w = None ->
  startListening w
  = (Normal tt,
     set_calls
       (calls w ++
        [Alert (lit "Voice recognition is not supported in your browser. Please use Chrome or Edge.")])
       w).
Proof.
  intros H. unfold startListening, bind, gets. rewrite H. reflexivity.
Qed.

Lemma start_without_recognition_is_atomic_witness :
  recognition deaf_voice = None
  /\ isListening (exec startListening deaf_voice) = false
  /\ dom (exec startListening deaf_voice) = dom deaf_voice
  /\ filter (fun c => match c with RecognitionStart => true | _ => false end)
            (calls (exec startListening deaf_voice)) = [].
Proof.
  pose proof (@start_without_recognition_is_atomic deaf_voice eq_refl) as H.
  unfold exec. rewrite H. repeat apply conj; vm_compute; reflexivity.
Defined.

Lemma session_ended_not_listening (w : VoiceAssistant) :
  isListening w = false ->
  let w' := exec session_ended w in
  isListening w' = false
  /\ calls w' = calls w
  /\ dom w' = dom w
  /\ conversation w' = conversation w
  /\ option_map started (recognition w') = option_map (fun _ => false) (recognition w).
Proof.
  intros H. unfold exec, session_ended, recognition_onend, bind, gets, modify.
  destruct (recognition w) as [rec|] eqn:Hr; simpl.
  - rewrite H. simpl. rewrite H. repeat split.
  - rewrite Hr. repeat split; assumption.
Qed.

Lemma stopListening_result (w : VoiceAssistant) :
  let w' := exec stopListening w in
  completion stopListening w = Normal tt
  /\ isListening w' = false
  /\ recognition w' = recognition w
  /\ voiceStatus_textContent (dom w') = lit "Voice assistant stopped"
  /\ voiceStatus_className (dom w') = lit "voice-status"
  /\ startVoiceBtn_disabled (dom w') = false
  /\ stopVoiceBtn_disabled (dom w') = true.
Proof.
  destruct w as [l sp [rec|] sy conv d c]; repeat split.
Qed.

Lemma stopListening_idempotent (w : VoiceAssistant) :
  state_of (exec stopListening (exec stopListening w)) = state_of (exec stopListening w).
Proof.
  destruct w as [l sp [rec|] sy conv [b wf cn tx sb pb area pa] c];
    vm_compute; reflexivity.
Qed.

Lemma ended_events_not_listening (n : nat) (w : VoiceAssistant) :
  isListening w = false ->
  let w' := run (repeat RecognitionEndEv n) w in
  isListening w' = false /\ calls w' = calls w /\ dom w' = dom w
  /\ option_map started (recognition w')
     = option_map (fun s => match n with O => s | S _ => false end)
                  (option_map started (recognition w)).
Proof.
  revert w. induction n as [|n IH]; intros w H; simpl.
  - repeat split; try assumption. destruct (recognition w); reflexivity.
  - destruct (session_ended_not_listening w H) as [H1 [H2 [H3 [_ H5]]]].
    destruct (IH _ H1) as [I1 [I2 [I3 I4]]].
    repeat split; [exact I1 | congruence | congruence |].
    change (handle RecognitionEndEv) with session_ended.
    rewrite I4, H5. destruct (recognition w); destruct n; reflexivity.
Qed.

(** C5.  After [stopListening], the [end] events that arrive do not restart
    recognition, however many there are: no call is made, the session stays
    ended, the listening flag stays false and the widget keeps showing that
    it is stopped.  Stopping a second time changes nothing of the widget. *)
Theorem stop_then_ended_never_restarts (n : nat) (w : VoiceAssistant) :
  let stopped := exec stopListening w in
  let w' := run (repeat RecognitionEndEv (S n)) stopped in
  calls w' = calls stopped
  /\ ~ In RecognitionStart (skipn (List.length (calls w)) (calls w'))
  /\ isListening w' = false
  /\ option_map started (recognition w') = option_map (fun _ => false) (recognition w)
  /\ dom w' = dom stopped
  /\ voiceStatus_textContent (dom w') = lit "Voice assistant stopped"
  /\ state_of (exec stopListening stopped) = state_of stopped.
Proof.
  intros stopped w'.
  destruct (stopListening_result w) as [_ [Hl [Hr [Ht _]]]].
  destruct (ended_events_not_listening (S n) stopped Hl) as [E1 [E2 [E3 E4]]].
  fold w' in E1, E2, E3, E4.
  split; [exact E2|]. split.
  - rewrite E2. unfold stopped. destruct w as [l sp [rec|] sy conv d c].
    + change (calls (exec stopListening (mkVoice l sp (Some rec) sy conv d c)))
        with (c ++ [RecognitionStop]).
      simpl calls. rewrite skipn_app, skipn_all, Nat.sub_diag. simpl.
      intros [H|[]]. discriminate H.
    + change (calls (exec stopListening (mkVoice l sp None sy conv d c))) with c.
      simpl calls. rewrite skipn_all. intros [].
  - split; [exact E1|]. split.
    + rewrite E4. fold stopped in Hr. rewrite Hr.
      destruct (recognition w); reflexivity.
    + split; [exact E3|]. split; [rewrite E3; exact Ht|].
      apply stopListening_idempotent.
Qed.

(** C6.  When the platform ends the session while the controller is
    listening, the [end] handler starts recognition again: the session runs
    anew, the handler completes normally, and the flag and the DOM are left
    as they were, so the widget neither stops nor reports an error. *)
Theorem session_end_while_listening_restarts
    (w : VoiceAssistant) (rec : SpeechRecognition) :
  recognition w = Some rec ->
  isListening w = true ->
  session_ended w
  = (Normal tt,
     set_calls (calls w ++ [RecognitionStart])
       (set_recognition
          (Some (mkRecognition (continuous rec) (interimResults rec) (lang rec) true)) w)).
Proof.
  intros Hr Hl.
  unfold session_ended, recognition_onend, recognition_start, bind, gets, modify, when, call.
  rewrite Hr. simpl. rewrite Hl. reflexivity.
Qed.

Lemma session_end_while_listening_restarts_witness :
  let w' := exec session_ended listening_voice in
  option_map started (recognition w') = Some true
  /\ calls w' = [RecognitionStart; RecognitionStart]
  /\ isListening w' = true
  /\ dom w' = dom listening_voice.
Proof.
  pose proof (@session_end_while_listening_restarts listening_voice
                (mkRecognition true true (lit "en-US") true) eq_refl eq_refl) as H.
  unfold exec. rewrite H. repeat apply conj; vm_compute; reflexivity.
Defined.

(* ------------------------------------------------------------------ *)
(** *** Speaking *)

(** C4.  When an utterance is being spoken, [speak] first cancels it and
    only then hands the new utterance to the synthesiser: the two calls are
    made in that order, and afterwards the new utterance is the one being
    spoken with nothing queued behind it. *)
Theorem speak_cancels_playing_utterance
    (text : jsval) (w : VoiceAssistant) (sy : SpeechSynthesis) (playing : Utterance) :
  synthesis w = Some sy ->
  current sy = Some playing ->
  speak text w
  = (Normal tt,
     set_synthesis (Some (mkSynthesis (Some (mkUtterance text 1 1 1)) []))
       (set_calls (calls w ++ [SynthesisCancel; SynthesisSpeak (mkUtterance text 1 1 1)]) w)).
Proof.
  intros Hs Hc.
  destruct w as [l sp r osy conv d c]. simpl in Hs. subst osy.
  destruct sy as [cur q]. simpl in Hc. subst cur.
  unfold speak, bind, gets, when, synthesis_cancel, call, modify. simpl.
  rewrite <- app_assoc. reflexivity.
Qed.

Lemma speak_cancels_playing_utterance_witness :
  option_map speaking (synthesis speaking_voice) = Some true
  /\ calls (exec (speak (JString errorMsg)) speaking_voice)
     = calls speaking_voice
       ++ [SynthesisCancel; SynthesisSpeak (mkUtterance (JString errorMsg) 1 1 1)]
  /\ option_map current (synthesis (exec (speak (JString errorMsg)) speaking_voice))
     = Some (Some (mkUtterance (JString errorMsg) 1 1 1)).
Proof.
  pose proof (@speak_cancels_playing_utterance (JString errorMsg) speaking_voice
                (mkSynthesis (Some (mkUtterance (JString (lit "Hi there!")) 1 1 1)) [])
                (mkUtterance (JString (lit "Hi there!")) 1 1 1) eq_refl eq_refl) as H.
  unfold exec. rewrite H. repeat apply conj; vm_compute; reflexivity.
Defined.

(** When nothing is being spoken, [speak] makes the one call. *)
Lemma speak_when_silent (text : jsval) (w : VoiceAssistant) (sy : SpeechSynthesis) :
  synthesis w = Some sy ->
  current sy = None ->
  speak text w
  = (Normal tt,
     set_synthesis (Some (synthesis_speak sy (mkUtterance text 1 1 1)))
       (set_calls (calls w ++ [SynthesisSpeak (mkUtterance text 1 1 1)]) w)).
Proof.
  intros Hs Hc.
  destruct w as [l sp r osy conv d c]. simpl in Hs. subst osy.
  destruct sy as [cur q]. simpl in Hc. subst cur. reflexivity.
Qed.

Lemma speak_keeps_queue_empty (text : jsval) (w : VoiceAssistant) :
  queue_empty w -> queue_empty (exec (speak text) w).
Proof.
  unfold queue_empty. destruct w as [l sp r [[[u|] q]|] conv d c]; simpl; intros H.
  - reflexivity.
  - subst q. reflexivity.
  - exact I.
Qed.

Lemma addMessage_synthesis (type : jsstring) (text : jsval) (w : VoiceAssistant) :
  addMessage type text w = (Normal tt, exec (addMessage type text) w)
  /\ synthesis (exec (addMessage type text) w) = synthesis w.
Proof.
  unfold exec, addMessage, bind, gets, when, update_dom, modify.
  destruct (existsb is_placeholder (transcriptArea (dom w))); split; reflexivity.
Qed.

Lemma stopListening_synthesis (w : VoiceAssistant) :
  synthesis (exec stopListening w) = synthesis w.
Proof. destruct w as [l sp [rec|] sy conv d c]; reflexivity. Qed.

Lemma processVoiceCommand_synthesis (t : jsstring) (w : VoiceAssistant) :
  synthesis (exec (processVoiceCommand t) w) = synthesis w.
Proof.
  unfold exec, processVoiceCommand. destruct (trim t) as [|c rest]; [reflexivity|].
  unfold bind at 1.
  destruct (addMessage_synthesis (lit "user") (JString (c :: rest)) w) as [E S].
  rewrite E. rewrite <- S. reflexivity.
Qed.

Lemma say_keeps_queue_empty (type : jsstring) (text : jsval) (w : VoiceAssistant) :
  queue_empty w -> queue_empty (exec (addMessage type text;; speak text) w).
Proof.
  intros H. unfold exec, bind.
  destruct (addMessage_synthesis type text w) as [E S]. rewrite E.
  apply speak_keeps_queue_empty. unfold queue_empty. rewrite S. exact H.
Qed.

Lemma settled_keeps_queue_empty (o : FetchOutcome) (w : VoiceAssistant) :
  queue_empty w -> queue_empty (exec (processVoiceCommand_settled o) w).
Proof.
  intros H.
  assert (Hcatch : forall e v, queue_empty v ->
            queue_empty (exec (console_error [JString (lit "Voice chat error:"); error_val e];;
                               addMessage (lit "ai") (JString errorMsg);;
                               speak (JString errorMsg)) v)).
  { intros e v Hv.
    change (queue_empty (exec (addMessage (lit "ai") (JString errorMsg);;
                               speak (JString errorMsg))
                              (set_calls (calls v ++ [ConsoleError [JString (lit "Voice chat error:");
                                                                    error_val e]]) v))).
    apply say_keeps_queue_empty. exact Hv. }
  unfold processVoiceCommand_settled, try_catch, exec.
  destruct (chat_try o w) as [[[]|e] v] eqn:Htry.
  - simpl. revert Htry. unfold chat_try.
    destruct o as [e|[ok st [e|data]]]; try discriminate.
    unfold bind at 1. simpl lift_result. unfold ret at 1.
    unfold bind at 1. destruct (get_prop data "response") as [e|field]; [discriminate|].
    simpl lift_result. unfold ret at 1. intros Htry.
    pose proof (@say_keeps_queue_empty (lit "ai") (js_or field (JString fallback_reply)) w H)
      as Hq.
    unfold exec in Hq. rewrite Htry in Hq. exact Hq.
  - assert (Hv : queue_empty v).
    { revert Htry. unfold chat_try.
      destruct o as [e'|[ok st [e'|data]]].
      - unfold throw. intros [= _ <-]. exact H.
      - simpl. unfold bind, throw. simpl. intros [= _ <-]. exact H.
      - unfold bind at 1. simpl lift_result. unfold ret at 1.
        unfold bind at 1. destruct (get_prop data "response") as [e'|field].
        + simpl. unfold throw. intros [= _ <-]. exact H.
        + simpl lift_result. unfold ret at 1. intros Htry.
          pose proof (@say_keeps_queue_empty (lit "ai") (js_or field (JString fallback_reply))
                        w H) as Hq.
          unfold exec in Hq. rewrite Htry in Hq. exact Hq. }
    apply (Hcatch e v Hv).
Qed.

Lemma updateTranscript_eq (text : jsstring) (w : VoiceAssistant) :
  updateTranscript text w
  = (Normal tt,
     set_dom (set_status_textContent
                (microphone ++ lit " " ++ [dquote] ++ text ++ [dquote]) (dom w)) w).
Proof. reflexivity. Qed.

Lemma console_error_eq (args : list jsval) (w : VoiceAssistant) :
  console_error args w = (Normal tt, set_calls (calls w ++ [ConsoleError args]) w).
Proof. reflexivity. Qed.

Lemma console_error_then (A : Type) (args : list jsval) (k : VM A) (w : VoiceAssistant) :
  (console_error args;; k) w = k (set_calls (calls w ++ [ConsoleError args]) w).
Proof. reflexivity. Qed.

Lemma handle_keeps_queue_empty (ev : Event) (w : VoiceAssistant) :
  queue_empty w -> queue_empty (exec (handle ev) w).
Proof.
  intros H. destruct ev as [| | |b|results|e| |o| |b]; simpl handle.
  - unfold queue_empty in *.
    destruct w as [l sp [[c i g [|]]|] sy conv d cs]; exact H.
  - unfold queue_empty. rewrite stopListening_synthesis. exact H.
  - exact H.
  - unfold queue_empty in *. unfold exec, document_click, bind, gets, when.
    destruct (negb b && voicePanel_active (dom w)); exact H.
  - unfold queue_empty in *. unfold exec, recognition_onresult, bind.
    rewrite updateTranscript_eq.
    destruct (rev results) as [|lastResult rest]; [exact H|].
    destruct (res_isFinal lastResult); [|exact H].
    unfold when, bind.
    match goal with
    | |- context [processVoiceCommand ?t ?v] =>
        pose proof (processVoiceCommand_synthesis t v) as Hs;
        unfold exec in Hs; destruct (processVoiceCommand t v) as [[a|e'] v']
    end; simpl in *; rewrite Hs; exact H.
  - unfold queue_empty. unfold recognition_onerror, exec, bind. rewrite console_error_eq.
    match goal with
    | |- context [stopListening ?v] =>
        pose proof (stopListening_synthesis v) as Hs; unfold exec in Hs;
        destruct (stopListening v) as [[a|e'] v']
    end; simpl in *; rewrite Hs; exact H.
  - unfold queue_empty in *.
    destruct w as [[|] sp [[c i g [|]]|] sy conv d cs]; exact H.
  - apply settled_keeps_queue_empty. exact H.
  - exact H.
  - unfold queue_empty in *.
    destruct w as [[|] sp r [[cur [|u q]]|] conv d cs]; destruct b; simpl in *;
      try exact I; try reflexivity; try discriminate H.
Qed.

(** On a page whose synthesiser starts idle, whatever events arrive and in
    whatever order, no utterance is ever queued behind another: the
    utterance [speak] starts is the only one the synthesiser holds. *)
Lemma utterance_queue_stays_empty
    (evs : list Event) (SpeechRecognition_defined : bool) :
  queue_empty (run evs (constructor SpeechRecognition_defined (Some (mkSynthesis None [])))).
Proof.
  assert (Hrun : forall l w, queue_empty w -> queue_empty (run l w)).
  { induction l as [|ev rest IH]; intros w H; simpl.
    - exact H.
    - apply IH. apply handle_keeps_queue_empty. exact H. }
  apply Hrun. destruct SpeechRecognition_defined; reflexivity.
Qed.

(* ------------------------------------------------------------------ *)
(** *** The reply to a chat request *)

(** The handler of the settled request never looks at [response.ok] or
    [response.status]: only the body decides what is appended and spoken. *)
Lemma chat_status_ignored
    (ok : bool) (status : Z) (body : JsError + jsval) (w : VoiceAssistant) :
  processVoiceCommand_settled (FetchResolved (mkResponse ok status body)) w
  = processVoiceCommand_settled (FetchResolved (mkResponse true 200 body)) w.
Proof. reflexivity. Qed.

Lemma addMessage_eq (type : jsstring) (text : jsval) (w : VoiceAssistant) :
  addMessage type text w
  = (Normal tt,
     set_conversation
       (conversation w ++ [JObject [(lit "role", JString type); (lit "content", text)]])
       (set_dom
          (set_transcriptArea
             ((if existsb is_placeholder (transcriptArea (dom w))
               then [] else transcriptArea (dom w))
              ++ [Message (lit "transcript-message " ++ type) (ToString text)])
             (dom w)) w)).
Proof.
  unfold addMessage, bind, gets, when, update_dom, modify.
  destruct (existsb is_placeholder (transcriptArea (dom w))); reflexivity.
Qed.

(** What [addMessage(type, text); speak(text)] does on a page that has a
    synthesiser: one entry, one utterance, nothing thrown. *)
Lemma say_eq (type : jsstring) (text : jsval) (w : VoiceAssistant) (sy : SpeechSynthesis) :
  synthesis w = Some sy ->
  exists w',
    (addMessage type text;; speak text) w = (Normal tt, w')
    /\ conversation w'
       = conversation w ++ [JObject [(lit "role", JString type); (lit "content", text)]]
    /\ calls w'
       = calls w ++ (if speaking sy then [SynthesisCancel] else [])
                 ++ [SynthesisSpeak (mkUtterance text 1 1 1)]
    /\ synthesis w' <> None.
Proof.
  intros Hs. exists (exec (addMessage type text;; speak text) w).
  unfold exec, bind. rewrite addMessage_eq.
  destruct w as [l sp r osy conv d c]. simpl in Hs. subst osy.
  destruct sy as [[u|] q]; (split; [reflexivity|]); simpl;
    repeat split; try discriminate.
  rewrite <- app_assoc. reflexivity.
Qed.

(** A rejected request and a body that does not parse both end in the
    generic error reply, appended once and spoken once. *)
Lemma chat_failure_speaks_error
    (o : FetchOutcome) (w : VoiceAssistant) (sy : SpeechSynthesis) :
  synthesis w = Some sy ->
  (exists e, o = FetchRejected e)
  \/ (exists ok status e, o = FetchResolved (mkResponse ok status (inl e))) ->
  exists e,
    let w' := exec (processVoiceCommand_settled o) w in
    completion (processVoiceCommand_settled o) w = Normal tt
    /\ conversation w' = conversation w ++ [ai_entry (JString errorMsg)]
    /\ calls w'
       = calls w ++ [ConsoleError [JString (lit "Voice chat error:"); error_val e]]
                 ++ (if speaking sy then [SynthesisCancel] else [])
                 ++ [SynthesisSpeak (mkUtterance (JString errorMsg) 1 1 1)].
Proof.
  intros Hs Ho.
  assert (He : exists e, chat_try o w = (Throw e, w)).
  { destruct Ho as [[e ->]|[ok [st [e ->]]]]; exists e; reflexivity. }
  destruct He as [e He]. exists e.
  destruct (@say_eq (lit "ai") (JString errorMsg)
              (set_calls (calls w ++ [ConsoleError [JString (lit "Voice chat error:");
                                                    error_val e]]) w) sy Hs)
    as [w' [E [Hc [Hk _]]]].
  assert (Heq : processVoiceCommand_settled o w = (Normal tt, w')).
  { unfold processVoiceCommand_settled, try_catch. rewrite He.
    rewrite console_error_then. exact E. }
  unfold completion, exec. rewrite Heq. simpl.
  split; [reflexivity|]. split; [exact Hc|].
  rewrite Hk. simpl. rewrite <- app_assoc. reflexivity.
Qed.

(** C1, on the code.  A 500 response whose body is the JSON object
    [{ error: "Internal Server Error" }] is not treated as a failure: the
    handler takes the body for a reply without a [response] field, so the
    assistant entry and the utterance carry the fallback reply of the
    success path and not the generic error reply, and nothing is logged. *)
Theorem non_2xx_json_reply_is_not_error_reply :
  let asked := exec (recognition_onresult hello_results) listening_voice in
  let w' := exec (processVoiceCommand_settled (FetchResolved server_error)) asked in
  resp_ok server_error = false
  /\ conversation w' = [user_entry (lit "hello"); ai_entry (JString fallback_reply)]
  /\ calls w' = calls asked ++ [SynthesisSpeak (mkUtterance (JString fallback_reply) 1 1 1)]
  /\ JString fallback_reply <> JString errorMsg
  /\ ~ In (ai_entry (JString errorMsg)) (conversation w').
Proof.
  cbv zeta. repeat apply conj; try (vm_compute; reflexivity).
  - intros H. vm_compute in H. discriminate H.
  - intros H. vm_compute in H. destruct H as [H|[H|[]]]; discriminate H.
Qed.

(** The same response with status 200 gives the very same widget. *)
Lemma non_2xx_handled_as_200 :
  let asked := exec (recognition_onresult hello_results) listening_voice in
  exec (processVoiceCommand_settled (FetchResolved server_error)) asked
  = exec (processVoiceCommand_settled
            (FetchResolved (mkResponse true 200 (resp_json server_error)))) asked.
Proof. reflexivity. Qed.

(* ------------------------------------------------------------------ *)
(** *** The shape of conversation entries *)

Lemma entry_has_code_shape (type : jsstring) (text : jsval) :
  type = lit "user" \/ type = lit "ai" ->
  code_entry_shape (JObject [(lit "role", JString type); (lit "content", text)]).
Proof.
  intros H. exists type, text. split; [reflexivity|].
  destruct H as [-> | ->]; simpl; auto.
Qed.

Lemma appended_nil (w w' : VoiceAssistant) :
  conversation w' = conversation w -> appended w w' [].
Proof. unfold appended. intros ->. rewrite app_nil_r. reflexivity. Qed.

Lemma speak_conversation (text : jsval) (w : VoiceAssistant) :
  conversation (exec (speak text) w) = conversation w.
Proof. destruct w as [l sp r [[[u|] q]|] conv d c]; reflexivity. Qed.

Lemma say_appends (type : jsstring) (text : jsval) (w : VoiceAssistant) :
  appended w (exec (addMessage type text;; speak text) w)
           [JObject [(lit "role", JString type); (lit "content", text)]].
Proof.
  unfold appended, exec, bind. rewrite addMessage_eq.
  match goal with
  | |- context [speak text ?v] =>
      pose proof (speak_conversation text v) as Hs; unfold exec in Hs;
      destruct (speak text v) as [[[]|e] v']
  end; simpl in *; rewrite Hs; reflexivity.
Qed.

Lemma processVoiceCommand_appends (t : jsstring) (w : VoiceAssistant) :
  exists new, appended w (exec (processVoiceCommand t) w) new
              /\ Forall code_entry_shape new.
Proof.
  unfold exec, processVoiceCommand. destruct (trim t) as [|c rest].
  - exists []. split; [apply appended_nil; reflexivity | constructor].
  - exists [JObject [(lit "role", JString (lit "user")); (lit "content", JString (c :: rest))]].
    split.
    + unfold appended, bind at 1. rewrite addMessage_eq. reflexivity.
    + constructor; [|constructor]. apply entry_has_code_shape. left. reflexivity.
Qed.

Lemma settled_appends (o : FetchOutcome) (w : VoiceAssistant) :
  exists new, appended w (exec (processVoiceCommand_settled o) w) new
              /\ Forall code_entry_shape new.
Proof.
  assert (Hcatch : forall e v,
            appended v (exec (console_error [JString (lit "Voice chat error:"); error_val e];;
                              addMessage (lit "ai") (JString errorMsg);;
                              speak (JString errorMsg)) v)
                     [ai_entry (JString errorMsg)]).
  { intros e v.
    pose proof (say_appends (lit "ai") (JString errorMsg)
                  (set_calls (calls v ++ [ConsoleError [JString (lit "Voice chat error:");
                                                        error_val e]]) v)) as Hs.
    exact Hs. }
  assert (Hai : forall x, code_entry_shape (ai_entry x)).
  { intros x. apply entry_has_code_shape. right. reflexivity. }
  assert (Htry : exists pre, appended w (snd (chat_try o w)) pre
                             /\ Forall code_entry_shape pre).
  { unfold chat_try. destruct o as [e|[ok st [e|data]]].
    - exists []. split; [apply appended_nil; reflexivity | constructor].
    - exists []. split; [apply appended_nil; reflexivity | constructor].
    - unfold bind at 1. simpl lift_result. unfold ret at 1.
      unfold bind at 1. destruct (get_prop data "response") as [e|field].
      + exists []. split; [apply appended_nil; reflexivity | constructor].
      + simpl lift_result. unfold ret at 1.
        exists [ai_entry (js_or field (JString fallback_reply))].
        split; [apply say_appends | constructor; [apply Hai | constructor]]. }
  destruct Htry as [pre [Hpre Fpre]].
  unfold processVoiceCommand_settled, try_catch, exec.
  destruct (chat_try o w) as [[[]|e] v].
  - exists pre. split; assumption.
  - exists (pre ++ [ai_entry (JString errorMsg)]). split.
    + unfold appended in *. simpl in Hpre. specialize (Hcatch e v).
      unfold exec in Hcatch. rewrite Hcatch, Hpre, app_assoc. reflexivity.
    + apply Forall_app. split; [exact Fpre | constructor; [apply Hai | constructor]].
Qed.

Lemma handle_appends (ev : Event) (w : VoiceAssistant) :
  exists new, appended w (exec (handle ev) w) new /\ Forall code_entry_shape new.
Proof.
  assert (Hnil : conversation (exec (handle ev) w) = conversation w ->
                 exists new, appended w (exec (handle ev) w) new
                             /\ Forall code_entry_shape new).
  { intros H. exists []. split; [apply appended_nil; exact H | constructor]. }
  destruct ev as [| | |b|results|e| |o| |b]; simpl handle in *.
  - apply Hnil. destruct w as [l sp [[c i g [|]]|] sy conv d cs]; reflexivity.
  - apply Hnil. destruct w as [l sp [rec|] sy conv d cs]; reflexivity.
  - apply Hnil. reflexivity.
  - apply Hnil. unfold exec, document_click, bind, gets, when.
    destruct (negb b && voicePanel_active (dom w)); reflexivity.
  - clear Hnil. unfold exec, recognition_onresult, bind. rewrite updateTranscript_eq.
    destruct (rev results) as [|lastResult rest].
    + exists []. split; [apply appended_nil; reflexivity | constructor].
    + destruct (res_isFinal lastResult).
      * unfold when, bind.
        match goal with
        | |- context [processVoiceCommand ?t ?v] =>
            destruct (processVoiceCommand_appends t v) as [new [Ha Hf]];
            unfold exec in Ha; exists new; split; [|exact Hf];
            destruct (processVoiceCommand t v) as [[a|e'] v']
        end; exact Ha.
      * exists []. split; [apply appended_nil; reflexivity | constructor].
  - apply Hnil. unfold exec, recognition_onerror, bind. rewrite console_error_eq.
    destruct w as [l sp [rec|] sy conv d cs]; reflexivity.
  - apply Hnil. destruct w as [[|] sp [[c i g [|]]|] sy conv d cs]; reflexivity.
  - apply settled_appends.
  - apply Hnil. reflexivity.
  - apply Hnil. destruct w as [[|] sp r sy conv d cs]; destruct b; reflexivity.
Qed.

Lemma chat_try_reply (resp : Response) (data field : jsval) (w : VoiceAssistant) :
  resp_json resp = inr data ->
  get_prop data "response" = inr field ->
  chat_try (FetchResolved resp) w
  = (addMessage (lit "ai") (js_or field (JString fallback_reply));;
     speak (js_or field (JString fallback_reply))) w.
Proof.
  intros Hj Hg. unfold chat_try. rewrite Hj.
  unfold bind at 1. simpl lift_result. unfold ret at 1.
  unfold bind at 1. rewrite Hg. reflexivity.
Qed.




End VoiceProperties.

(* ================================================================== *)
(** ** Properties of the screenshot analyzer *)
(* ================================================================== *)

Section CaptureProperties.

Import Capture Samples.

Example result_shown_state :
  widget_state result_shown = ResultShown
  /\ displayed result_shown
     = Some (Some first_image, ResultAnalysis (Text (lit "A cockpit."))).
Proof. split; vm_compute; reflexivity. Qed.

(** A failed analysis is what puts the error block in the modal. *)
Example failed_analysis_shows_error :
  widget_state
    (exec (analyzeScreenshot_settled (FetchResolved (mkResponse false 500 (inr JNull))))
          (exec (captureScreen (Granted (Encoded first_image))) constructor))
  = ErrorShown.
Proof. vm_compute. reflexivity. Qed.

(** What [captureScreen] does to the widget: nothing, unless a frame was
    captured and encoded. *)
Lemma captureScreen_effect (p : DisplayMedia) (w : ScreenshotAnalyzer) :
  let w' := exec (captureScreen p) w in
  completion (captureScreen p) w = Normal tt
  /\ calls w' = calls w ++ capture_calls p
  /\ timers w' = timers w
  /\ dom w' = match p with
              | Granted (Encoded imageDataUrl) =>
                  mkDom true true (Some imageDataUrl) ResultLoading
              | _ => dom w
              end.
Proof.
  destruct w as [a i d t c].
  destruct p as [|e|[e|e|img]];
    unfold capture_calls, completion, exec, captureScreen, try_catch, bind, throw, call,
      alert, console_error, modify; simpl;
    try destruct (jsstring_eqb (err_name e) NotAllowedError);
    simpl; rewrite <- ?app_assoc; repeat apply conj; reflexivity.
Qed.

(* ------------------------------------------------------------------ *)
(** *** A denied capture *)

(** C7.  When the platform denies the capture, that is when the promise of
    [getDisplayMedia] rejects with [NotAllowedError], [captureScreen] ends
    in its error branch: it logs the error and surfaces the
    permission-denied message in a blocking alert, which is how the widget
    reports the errors of a capture.  No request is sent to the analysis
    endpoint and no analysis begins: the tracks are not touched, no timer
    is set, and the modal, the preview and the result area are left as
    they were. *)
Theorem denied_capture_alerts_and_sends_nothing
    (w : ScreenshotAnalyzer) (e : JsError) :
  err_name e = NotAllowedError ->
  let w' := exec (captureScreen (Rejected e)) w in
  captureScreen (Rejected e) w
  = (Normal tt,
     set_calls (calls w ++ [GetDisplayMedia;
                            ConsoleError [JString (lit "Screenshot error:"); error_val e];
                            Alert permission_denied_message]) w)
  /\ last (calls w') GetDisplayMedia = Alert permission_denied_message
  /\ filter is_fetch (skipn (List.length (calls w)) (calls w')) = []
  /\ dom w' = dom w
  /\ timers w' = timers w.
Proof.
  intros Hn.
  assert (Heq : captureScreen (Rejected e) w
                = (Normal tt,
                   set_calls (calls w ++ [GetDisplayMedia;
                                          ConsoleError [JString (lit "Screenshot error:");
                                                        error_val e];
                                          Alert permission_denied_message]) w)).
  { destruct w as [a i d t c].
    unfold captureScreen, try_catch, bind, throw, call, alert, console_error, modify.
    simpl. rewrite Hn. unfold call, modify. simpl. rewrite <- !app_assoc. reflexivity. }
  cbv zeta. unfold exec. rewrite Heq. cbn [snd].
  destruct w as [a i d t c]. cbn [calls set_calls dom timers].
  split; [reflexivity|]. split; [|split; [|split; reflexivity]].
  - change [GetDisplayMedia;
            ConsoleError [JString (lit "Screenshot error:"); error_val e];
            Alert permission_denied_message]
      with ([GetDisplayMedia;
             ConsoleError [JString (lit "Screenshot error:"); error_val e]]
            ++ [Alert permission_denied_message]).
    rewrite app_assoc. apply last_last.
  - rewrite skipn_app, skipn_all, Nat.sub_diag. reflexivity.
Qed.

Lemma denied_capture_alerts_and_sends_nothing_witness :
  let w' := exec (captureScreen (Rejected permission_denied)) result_shown in
  calls w' = calls result_shown
             ++ [GetDisplayMedia;
                 ConsoleError [JString (lit "Screenshot error:"); error_val permission_denied];
                 Alert permission_denied_message]
  /\ dom w' = dom result_shown.
Proof.
  destruct (@denied_capture_alerts_and_sends_nothing result_shown permission_denied eq_refl)
    as [H [_ [_ [Hd _]]]].
  split.
  - unfold exec. rewrite H. reflexivity.
  - exact Hd.
Defined.

(* ------------------------------------------------------------------ *)
(** *** Retaking *)

(** C8.  [retakeScreenshot] is [closeModal] followed by a timer of 300 ms
    that runs [captureScreen]: the modal is hidden at once; when a timer
    fires, the widget ends up showing what closing and then capturing
    shows, and the calls made are those of closing and capturing with the
    [setTimeout] between them.  The modal then displays the new image with
    the spinner, or stays hidden when no frame was captured: the previous
    image and result are not displayed again. *)
Theorem retake_is_close_delay_capture (w : ScreenshotAnalyzer) (p : DisplayMedia) :
  let closed := exec closeModal w in
  let scheduled := exec retakeScreenshot w in
  let code := exec (timer_fires p) scheduled in
  let spec := exec (retake_spec p) w in
  retakeScreenshot w
  = (Normal tt,
     set_timers (timers w ++ [(300%Z, CaptureScreenTask)])
                (set_calls (calls w ++ [SetTimeout 300]) closed))
  /\ displayed scheduled = None
  /\ dom scheduled = dom closed
  /\ dom code = dom spec
  /\ calls code = calls w ++ SetTimeout 300 :: capture_calls p
  /\ calls spec = calls w ++ capture_calls p
  /\ timers code = tl (timers w ++ [(300%Z, CaptureScreenTask)])
  /\ displayed code = match p with
                      | Granted (Encoded imageDataUrl) =>
                          Some (Some imageDataUrl, ResultLoading)
                      | _ => None
                      end.
Proof.
  intros closed scheduled code spec.
  assert (Hr : retakeScreenshot w
               = (Normal tt,
                  set_timers (timers w ++ [(300%Z, CaptureScreenTask)])
                             (set_calls (calls w ++ [SetTimeout 300]) closed))).
  { reflexivity. }
  assert (Hsch : scheduled
                 = set_timers (timers w ++ [(300%Z, CaptureScreenTask)])
                              (set_calls (calls w ++ [SetTimeout 300]) closed)).
  { unfold scheduled, exec. rewrite Hr. reflexivity. }
  assert (Hcode : code
                  = exec (captureScreen p)
                         (set_timers (tl (timers w ++ [(300%Z, CaptureScreenTask)]))
                                     (set_calls (calls w ++ [SetTimeout 300]) closed))).
  { unfold code. rewrite Hsch. destruct w as [a i d t c].
    destruct t as [|[delay []] ts]; reflexivity. }
  assert (Hspec : spec = exec (captureScreen p) closed) by reflexivity.
  destruct (captureScreen_effect p
              (set_timers (tl (timers w ++ [(300%Z, CaptureScreenTask)]))
                          (set_calls (calls w ++ [SetTimeout 300]) closed)))
    as [_ [Cc [Ct Cd]]].
  destruct (captureScreen_effect p closed) as [_ [Sc [_ Sd]]].
  rewrite <- Hcode in Cc, Ct, Cd. rewrite <- Hspec in Sc, Sd.
  split; [exact Hr|]. split; [rewrite Hsch; reflexivity|].
  split; [rewrite Hsch; reflexivity|].
  split; [rewrite Cd, Sd; reflexivity|].
  split; [rewrite Cc; cbn [calls set_timers set_calls]; rewrite <- app_assoc; reflexivity|].
  split; [rewrite Sc; reflexivity|].
  split; [rewrite Ct; reflexivity|].
  unfold displayed. rewrite Cd.
  destruct p as [|e|[e|e|img]]; reflexivity.
Qed.

(** Retaking while a result is shown, when the new capture succeeds: one
    request, carrying the new image. *)
Lemma retake_from_result_shown :
  let w' := exec (timer_fires (Granted (Encoded second_image)))
                 (exec retakeScreenshot result_shown) in
  widget_state (exec retakeScreenshot result_shown) = Idle
  /\ widget_state w' = Analyzing
  /\ displayed w' = Some (Some second_image, ResultLoading)
  /\ skipn (List.length (calls result_shown)) (calls w')
     = [SetTimeout 300; GetDisplayMedia; StopTracks; Fetch (analysis_request second_image)].
Proof. cbv zeta. repeat apply conj; vm_compute; reflexivity. Qed.

End CaptureProperties.

(* ================================================================== *)
(** ** Further properties of the voice assistant *)
(* ================================================================== *)

Section VoiceReplies.

Import Voice Samples VoiceViews.

Lemma addMessage_push (type : jsstring) (text : jsval) (w : VoiceAssistant) :
  addMessage type text w = (Normal tt, push_message type text w).
Proof. apply addMessage_eq. Qed.

Lemma calls_since_app (w w' : VoiceAssistant) (cs : list Call) :
  calls w' = calls w ++ cs -> calls_since w w' = cs.
Proof.
  unfold calls_since. intros ->.
  rewrite skipn_app, skipn_all, Nat.sub_diag. reflexivity.
Qed.

Lemma filter_speak_after_cancel (b : bool) (u : Utterance) (pre : list Call) :
  filter is_speak pre = [] ->
  filter is_speak (pre ++ (if b then [SynthesisCancel] else []) ++ [SynthesisSpeak u])
  = [SynthesisSpeak u].
Proof.
  intros H. rewrite filter_app, H. destruct b; reflexivity.
Qed.

(** The handler of a settled request whose [try] block threw at once. *)
Lemma settled_after_throw
    (o : FetchOutcome) (e : JsError) (w : VoiceAssistant) (sy : SpeechSynthesis) :
  chat_try o w = (Throw e, w) ->
  synthesis w = Some sy ->
  let w' := exec (processVoiceCommand_settled o) w in
  completion (processVoiceCommand_settled o) w = Normal tt
  /\ conversation w' = conversation w ++ [ai_entry (JString errorMsg)]
  /\ calls w'
     = calls w ++ [ConsoleError [JString (lit "Voice chat error:"); error_val e]]
               ++ (if speaking sy then [SynthesisCancel] else [])
               ++ [SynthesisSpeak (mkUtterance (JString errorMsg) 1 1 1)].
Proof.
  intros He Hs.
  destruct (@say_eq (lit "ai") (JString errorMsg)
              (set_calls (calls w ++ [ConsoleError [JString (lit "Voice chat error:");
                                                    error_val e]]) w) sy Hs)
    as [w' [E [Hc [Hk _]]]].
  assert (Heq : processVoiceCommand_settled o w = (Normal tt, w')).
  { unfold processVoiceCommand_settled, try_catch. rewrite He.
    rewrite console_error_then. exact E. }
  unfold completion, exec. rewrite Heq. cbn [fst snd].
  split; [reflexivity|]. split; [exact Hc|].
  rewrite Hk. cbn [calls set_calls]. rewrite <- app_assoc. reflexivity.
Qed.

Lemma chat_fails_throws (o : FetchOutcome) (w : VoiceAssistant) :
  chat_fails o = true -> exists e, chat_try o w = (Throw e, w).
Proof.
  destruct o as [e|[ok st [e|data]]]; simpl; intros H.
  - exists e. reflexivity.
  - exists e. reflexivity.
  - destruct data; try discriminate H; eexists; reflexivity.
Qed.

(** X1, a failed chat request.  When the request is rejected, or its body
    does not parse, or parses to [null], the handler appends exactly one
    assistant entry, the generic error message, speaks it exactly once,
    logs the error and completes normally. *)
Theorem chat_failure_is_one_spoken_error
    (o : FetchOutcome) (w : VoiceAssistant) (sy : SpeechSynthesis) :
  synthesis w = Some sy ->
  chat_fails o = true ->
  let w' := exec (processVoiceCommand_settled o) w in
  completion (processVoiceCommand_settled o) w = Normal tt
  /\ conversation w' = conversation w ++ [ai_entry (JString errorMsg)]
  /\ filter is_speak (calls_since w w')
     = [SynthesisSpeak (mkUtterance (JString errorMsg) 1 1 1)]
  /\ filter is_fetch (calls_since w w') = []
  /\ (exists e, hd_error (calls_since w w')
                = Some (ConsoleError [JString (lit "Voice chat error:"); error_val e])).
Proof.
  intros Hs Hf. destruct (@chat_fails_throws o w Hf) as [e He].
  destruct (@settled_after_throw o e w sy He Hs) as [Hn [Hc Hk]].
  cbv zeta. rewrite (@calls_since_app _ _ _ Hk).
  split; [exact Hn|]. split; [exact Hc|]. split; [|split].
  - destruct (speaking sy); reflexivity.
  - destruct (speaking sy); reflexivity.
  - exists e. reflexivity.
Qed.

Lemma chat_failure_is_one_spoken_error_witness :
  let o := FetchResolved (mkResponse true 200 (inr JNull)) in
  conversation (exec (processVoiceCommand_settled o) speaking_voice)
  = conversation speaking_voice ++ [ai_entry (JString errorMsg)].
Proof.
  destruct (@chat_failure_is_one_spoken_error
              (FetchResolved (mkResponse true 200 (inr JNull))) speaking_voice
              (mkSynthesis (Some (mkUtterance (JString (lit "Hi there!")) 1 1 1)) [])
              eq_refl eq_refl) as [_ [H _]].
  exact H.
Defined.

(** X2, the fallback reply.  When the body parses but its [response] field
    is missing or falsy (empty string, [null], [false], zero), the entry
    appended and the text spoken are the fixed fallback reply. *)
Theorem missing_reply_uses_fallback
    (resp : Response) (data field : jsval) (w : VoiceAssistant) (sy : SpeechSynthesis) :
  synthesis w = Some sy ->
  resp_json resp = inr data ->
  get_prop data "response" = inr field ->
  truthy field = false ->
  let w' := exec (processVoiceCommand_settled (FetchResolved resp)) w in
  completion (processVoiceCommand_settled (FetchResolved resp)) w = Normal tt
  /\ conversation w' = conversation w ++ [ai_entry (JString fallback_reply)]
  /\ calls_since w w'
     = (if speaking sy then [SynthesisCancel] else [])
       ++ [SynthesisSpeak (mkUtterance (JString fallback_reply) 1 1 1)].
Proof.
  intros Hs Hj Hg Ht.
  destruct (@say_eq (lit "ai") (JString fallback_reply) w sy Hs) as [w' [E [Hc [Hk _]]]].
  assert (Heq : processVoiceCommand_settled (FetchResolved resp) w = (Normal tt, w')).
  { unfold processVoiceCommand_settled, try_catch.
    rewrite (@chat_try_reply resp data field w Hj Hg). unfold js_or. rewrite Ht, E.
    reflexivity. }
  unfold completion, exec. rewrite Heq. cbn [fst snd].
  split; [reflexivity|]. split; [exact Hc|]. apply (@calls_since_app _ _ _ Hk).
Qed.

Lemma missing_reply_uses_fallback_witness :
  let resp := mkResponse true 200 (inr (JObject [(lit "response", JString [])])) in
  conversation (exec (processVoiceCommand_settled (FetchResolved resp)) fresh_voice)
  = [ai_entry (JString fallback_reply)].
Proof.
  destruct (@missing_reply_uses_fallback
              (mkResponse true 200 (inr (JObject [(lit "response", JString [])])))
              (JObject [(lit "response", JString [])]) (JString []) fresh_voice
              (mkSynthesis None []) eq_refl eq_refl eq_refl eq_refl) as [_ [H _]].
  exact H.
Defined.




End VoiceReplies.

Section VoiceEvents.

Import Voice Samples VoiceViews.

(** What the first half of [processVoiceCommand] does with a transcript
    that has content. *)
Lemma processVoiceCommand_asks (t : jsstring) (w : VoiceAssistant) :
  trim t <> [] ->
  exists w',
    processVoiceCommand t w = (Normal true, w')
    /\ conversation w' = conversation w ++ [user_entry (trim t)]
    /\ calls w' = calls w ++ [Fetch (chat_request (trim t))]
    /\ kept w' = kept w
    /\ synthesis w' = synthesis w
    /\ transcriptArea (dom w') = transcriptArea (dom (push_message (lit "user") (JString (trim t)) w))
    /\ voiceStatus_textContent (dom w') = thought_balloon ++ lit " AI is thinking...".
Proof.
  intros Hne. unfold processVoiceCommand.
  destruct (trim t) as [|c rest] eqn:Ht; [contradiction|].
  unfold bind at 1. rewrite addMessage_push.
  eexists. split; [reflexivity|]. repeat apply conj; reflexivity.
Qed.

(** X4, the transcript of a final result.  The handler of [result] joins
    the transcripts of all the results the event carries, not only the last
    one: when the last result is final, the user entry and the posted
    message are the trimmed join, so in a continuous session a later
    sentence is sent together with the sentences before it. *)
Theorem final_result_posts_joined_transcript
    (results earlier : list RecognitionResult) (lastResult : RecognitionResult)
    (w : VoiceAssistant) :
  results = earlier ++ [lastResult] ->
  res_isFinal lastResult = true ->
  trim (List.concat (map res_transcript results)) <> [] ->
  let joined := List.concat (map res_transcript earlier) ++ res_transcript lastResult in
  let w' := exec (recognition_onresult results) w in
  completion (recognition_onresult results) w = Normal tt
  /\ conversation w' = conversation w ++ [user_entry (trim joined)]
  /\ calls w' = calls w ++ [Fetch (chat_request (trim joined))].
Proof.
  intros Hres Hfinal Hne joined w'.
  assert (Hj : List.concat (map res_transcript results) = joined).
  { rewrite Hres, map_app, concat_app. simpl. rewrite app_nil_r. reflexivity. }
  rewrite Hj in Hne.
  assert (Heq : exists v, recognition_onresult results w = (Normal tt, v)
                          /\ conversation v = conversation w ++ [user_entry (trim joined)]
                          /\ calls v = calls w ++ [Fetch (chat_request (trim joined))]).
  { unfold recognition_onresult. rewrite Hj.
    replace (rev results) with (lastResult :: rev earlier)
      by (rewrite Hres, rev_app_distr; reflexivity).
    rewrite Hfinal. unfold when. unfold bind at 1. rewrite updateTranscript_eq.
    match goal with
    | |- context [bind (processVoiceCommand joined) _ ?u] =>
        destruct (@processVoiceCommand_asks joined u Hne) as [v [E [Hc [Hk _]]]];
        exists v; unfold bind; rewrite E
    end.
    split; [reflexivity|]. split; [exact Hc | exact Hk]. }
  destruct Heq as [v [E [Hc Hk]]].
  unfold w', completion, exec. rewrite E. cbn [fst snd].
  split; [reflexivity|]. split; [exact Hc | exact Hk].
Qed.

Lemma final_result_posts_joined_transcript_witness :
  let results := [mkResult (lit "turn on the lights") true;
                  mkResult (lit " what time is it ") true] in
  calls (exec (recognition_onresult results) listening_voice)
  = calls listening_voice
    ++ [Fetch (chat_request (lit "turn on the lights what time is it"))].
Proof.
  assert (Hne : trim (List.concat (map res_transcript
                        [mkResult (lit "turn on the lights") true;
                         mkResult (lit " what time is it ") true])) <> [])
    by (vm_compute; discriminate).
  destruct (@final_result_posts_joined_transcript
              [mkResult (lit "turn on the lights") true;
               mkResult (lit " what time is it ") true]
              [mkResult (lit "turn on the lights") true]
              (mkResult (lit " what time is it ") true)
              listening_voice eq_refl eq_refl Hne) as [_ [_ H]].
  exact H.
Defined.

(** X5, an interim result.  When the last result of the event is not final,
    the handler only rewrites the status line with the joined transcript in
    quotes: no entry, no request, no other change. *)
Theorem interim_result_only_updates_status
    (results earlier : list RecognitionResult) (lastResult : RecognitionResult)
    (w : VoiceAssistant) :
  results = earlier ++ [lastResult] ->
  res_isFinal lastResult = false ->
  recognition_onresult results w
  = (Normal tt,
     set_dom (set_status_textContent
                (microphone ++ lit " " ++ [dquote]
                 ++ List.concat (map res_transcript results) ++ [dquote])
                (dom w)) w).
Proof.
  intros Hres Hfinal. unfold recognition_onresult.
  replace (rev results) with (lastResult :: rev earlier)
    by (rewrite Hres, rev_app_distr; reflexivity).
  rewrite Hfinal. reflexivity.
Qed.

Lemma interim_result_only_updates_status_witness :
  let w' := exec (recognition_onresult [mkResult (lit "hel") false]) listening_voice in
  conversation w' = [] /\ calls w' = calls listening_voice
  /\ voiceStatus_textContent (dom w')
     = microphone ++ lit " " ++ [dquote] ++ lit "hel" ++ [dquote].
Proof.
  pose proof (@interim_result_only_updates_status [mkResult (lit "hel") false] []
                (mkResult (lit "hel") false) listening_voice eq_refl eq_refl) as H.
  unfold exec. rewrite H. repeat apply conj; vm_compute; reflexivity.
Defined.

(** X6, the conversation is append-only.  Whatever events arrive, in whatever
    order and whether or not a handler throws, the conversation afterwards
    is the conversation before followed by new entries, each of the shape
    [addMessage] gives them. *)
Theorem conversation_is_append_only (evs : list Event) (w : VoiceAssistant) :
  exists new,
    conversation (run evs w) = conversation w ++ new
    /\ Forall code_entry_shape new.
Proof.
  revert w. induction evs as [|ev rest IH]; intros w; simpl.
  - exists []. split; [rewrite app_nil_r; reflexivity | constructor].
  - destruct (handle_appends ev w) as [new1 [H1 F1]].
    destruct (IH (exec (handle ev) w)) as [new2 [H2 F2]].
    exists (new1 ++ new2). split.
    + rewrite H2. unfold appended in H1. rewrite H1, app_assoc. reflexivity.
    + apply Forall_app. split; assumption.
Qed.

(** X7, a recognition error.  The [error] handler logs the error and stops
    listening: the flag is cleared, [recognition.stop()] is called, the
    controls go back to their stopped setting; and the [end] events that
    follow make no call at all, so recognition is not restarted. *)
Theorem recognition_error_stops_for_good (error : jsstring) (n : nat) (w : VoiceAssistant) :
  let w1 := exec (recognition_onerror error) w in
  let w2 := run (repeat RecognitionEndEv n) w1 in
  completion (recognition_onerror error) w = Normal tt
  /\ isListening w1 = false
  /\ calls w1
     = calls w
       ++ ConsoleError [JString (lit "Speech recognition error:"); JString error]
          :: (match recognition w with Some _ => [RecognitionStop] | None => [] end)
  /\ controls (dom w1) = controls_stopped
  /\ voiceStatus_textContent (dom w1) = lit "Voice assistant stopped"
  /\ calls w2 = calls w1
  /\ isListening w2 = false
  /\ dom w2 = dom w1.
Proof.
  intros w1 w2.
  assert (H1 : completion (recognition_onerror error) w = Normal tt
               /\ isListening w1 = false
               /\ calls w1
                  = calls w
                    ++ ConsoleError [JString (lit "Speech recognition error:"); JString error]
                       :: (match recognition w with
                           | Some _ => [RecognitionStop] | None => [] end)
               /\ controls (dom w1) = controls_stopped
               /\ voiceStatus_textContent (dom w1) = lit "Voice assistant stopped").
  { unfold w1. destruct w as [l sp [rec|] sy conv d c];
      repeat apply conj; try reflexivity;
      cbn; rewrite <- app_assoc; reflexivity. }
  destruct H1 as [Hn [Hl [Hk [Hc Ht]]]].
  destruct (@ended_events_not_listening n w1 Hl) as [E1 [E2 [E3 _]]].
  repeat apply conj; assumption.
Qed.



(** X9, the panel.  A click on the main button toggles the panel, so two
    clicks leave the widget as it was; a click outside the container always
    leaves the panel closed and a click inside never changes anything; none
    of them touches anything but the panel. *)
Theorem panel_clicks (w : VoiceAssistant) :
  exec mainButton_click (exec mainButton_click w) = w
  /\ voicePanel_active (dom (exec mainButton_click w)) = negb (voicePanel_active (dom w))
  /\ exec (document_click true) w = w
  /\ exec (document_click false) w = set_dom (set_panel_active false (dom w)) w.
Proof.
  destruct w as [l sp r sy conv [b wf cn tx sb pb area [|]] c];
    repeat apply conj; reflexivity.
Qed.

End VoiceEvents.

(* ------------------------------------------------------------------ *)
(** *** Invariants of the voice assistant *)

Section VoiceInvariants.

Import Voice Samples VoiceViews.

Lemma speak_frame (text : jsval) (w : VoiceAssistant) :
  kept (exec (speak text) w) = kept w
  /\ conversation (exec (speak text) w) = conversation w
  /\ dom (exec (speak text) w) = dom w.
Proof. destruct w as [l sp r [[[u|] q]|] conv d c]; repeat apply conj; reflexivity. Qed.

(** [addMessage(type, text); speak(text)] leaves the controller as
    [addMessage] left it, up to the synthesiser and the calls. *)
Lemma say_frame (type : jsstring) (text : jsval) (w : VoiceAssistant) :
  let w' := exec (addMessage type text;; speak text) w in
  kept w' = kept w
  /\ conversation w' = conversation (push_message type text w)
  /\ dom w' = dom (push_message type text w).
Proof.
  cbv zeta. unfold exec, bind. rewrite addMessage_push.
  destruct (speak_frame text (push_message type text w)) as [Hk [Hc Hd]].
  unfold exec in Hk, Hc, Hd.
  destruct (speak text (push_message type text w)) as [[[]|e] v]; cbn [snd] in *;
    rewrite Hk, Hc, Hd; repeat apply conj; reflexivity.
Qed.

(** A property that survives a logged error and an appended, spoken
    message survives the handler of a settled request. *)
Lemma settled_preserves (P : VoiceAssistant -> Prop) :
  (forall type text v, P v -> P (exec (addMessage type text;; speak text) v)) ->
  (forall args v, P v -> P (set_calls (calls v ++ [ConsoleError args]) v)) ->
  forall o w, P w -> P (exec (processVoiceCommand_settled o) w).
Proof.
  intros Hsay Hlog o w H.
  assert (Htry : P (snd (chat_try o w))).
  { unfold chat_try. destruct o as [e|[ok st [e|data]]]; try exact H.
    unfold bind at 1. simpl lift_result. unfold ret at 1.
    unfold bind at 1. destruct (get_prop data "response") as [e|field]; [exact H|].
    simpl lift_result. unfold ret at 1. apply Hsay. exact H. }
  unfold processVoiceCommand_settled, try_catch, exec.
  destruct (chat_try o w) as [[[]|e] v]; cbn [snd] in *.
  - exact Htry.
  - rewrite console_error_then. apply Hsay. apply Hlog. exact Htry.
Qed.

Lemma settled_kept (o : FetchOutcome) (w : VoiceAssistant) :
  kept (exec (processVoiceCommand_settled o) w) = kept w.
Proof.
  apply (@settled_preserves (fun v => kept v = kept w)).
  - intros type text v Hv. destruct (say_frame type text v) as [Hk _].
    rewrite Hk. exact Hv.
  - intros args v Hv. exact Hv.
  - reflexivity.
Qed.

Lemma processVoiceCommand_frame (t : jsstring) (w : VoiceAssistant) :
  let w' := exec (processVoiceCommand t) w in
  kept w' = kept w
  /\ (conversation w' = conversation w /\ transcriptArea (dom w') = transcriptArea (dom w)
      \/ conversation w' = conversation (push_message (lit "user") (JString (trim t)) w)
         /\ transcriptArea (dom w')
            = transcriptArea (dom (push_message (lit "user") (JString (trim t)) w))).
Proof.
  cbv zeta. destruct (trim t) as [|c rest] eqn:Ht.
  - unfold exec, processVoiceCommand. rewrite Ht. split; [reflexivity|]. left. split; reflexivity.
  - assert (Hne : trim t <> []) by (rewrite Ht; discriminate).
    destruct (@processVoiceCommand_asks t w Hne) as [v [E [Hc [_ [Hk [_ [Ha _]]]]]]].
    unfold exec. rewrite E. cbn [snd]. rewrite <- Ht. split; [exact Hk|]. right.
    split; [rewrite Hc; reflexivity | exact Ha].
Qed.

Lemma onresult_exec (results : list RecognitionResult) (w : VoiceAssistant) :
  exec (recognition_onresult results) w
  = let transcript := List.concat (map res_transcript results) in
    let shown := exec (updateTranscript transcript) w in
    match rev results with
    | [] => shown
    | lastResult :: _ =>
        if res_isFinal lastResult then exec (processVoiceCommand transcript) shown else shown
    end.
Proof.
  unfold exec, recognition_onresult, bind. rewrite updateTranscript_eq. cbn [snd].
  destruct (rev results) as [|lastResult rest]; [reflexivity|].
  destruct (res_isFinal lastResult); [|reflexivity].
  unfold when.
  destruct (processVoiceCommand (List.concat (map res_transcript results)) _) as [[a|e] v];
    reflexivity.
Qed.

Lemma onresult_frame (results : list RecognitionResult) (w : VoiceAssistant) :
  let w' := exec (recognition_onresult results) w in
  kept w' = kept w
  /\ (conversation w' = conversation w /\ transcriptArea (dom w') = transcriptArea (dom w)
      \/ exists text,
           conversation w' = conversation (push_message (lit "user") text w)
           /\ transcriptArea (dom w') = transcriptArea (dom (push_message (lit "user") text w))).
Proof.
  cbv zeta. rewrite onresult_exec. cbv zeta.
  destruct (rev results) as [|lastResult rest].
  - split; [reflexivity|]. left. split; reflexivity.
  - destruct (res_isFinal lastResult); [|split; [reflexivity|]; left; split; reflexivity].
    match goal with
    | |- context [exec (processVoiceCommand ?t) ?u] =>
        destruct (processVoiceCommand_frame t u) as [Hk [[Hc Ha]|[Hc Ha]]]
    end.
    + split; [exact Hk|]. left. split; [exact Hc | exact Ha].
    + split; [exact Hk|]. right. eexists. split; [exact Hc | exact Ha].
Qed.

(* The controls. *)

Lemma kept_controls_ok (w w' : VoiceAssistant) :
  kept w' = kept w -> controls_ok w -> controls_ok w'.
Proof.
  intros Hk H. apply (f_equal snd) in Hk. unfold kept in Hk. cbn [snd] in Hk.
  unfold controls_ok. rewrite Hk. exact H.
Qed.

Lemma handle_controls_ok (ev : Event) (w : VoiceAssistant) :
  controls_ok w -> controls_ok (exec (handle ev) w).
Proof.
  intros H. destruct ev as [| | |b|results|e| |o| |b]; simpl handle.
  - destruct w as [l sp [[c i g [|]]|] sy conv d cs]; try exact H. left. reflexivity.
  - destruct w as [l sp [rec|] sy conv d cs]; right; reflexivity.
  - exact H.
  - unfold exec, document_click, bind, gets, when.
    destruct (negb b && voicePanel_active (dom w)); exact H.
  - destruct (onresult_frame results w) as [Hk _]. exact (@kept_controls_ok _ _ Hk H).
  - destruct w as [l sp [rec|] sy conv d cs]; right; reflexivity.
  - destruct w as [[|] sp [[c i g [|]]|] sy conv d cs]; exact H.
  - exact (@kept_controls_ok _ _ (settled_kept o w) H).
  - exact H.
  - destruct w as [[|] sp r sy conv d cs]; destruct b; exact H.
Qed.

(** X10, the controls agree.  Whatever events arrive, the page shows one of
    two settings: listening (button pulsing, waveform shown, Start
    disabled, Stop enabled) or stopped (the opposite); Start and Stop are
    never both enabled or both disabled. *)
Theorem controls_always_agree
    (evs : list Event) (SpeechRecognition_defined : bool)
    (speechSynthesis : option SpeechSynthesis) :
  let d := dom (run evs (constructor SpeechRecognition_defined speechSynthesis)) in
  (controls d = controls_listening \/ controls d = controls_stopped)
  /\ startVoiceBtn_disabled d = negb (stopVoiceBtn_disabled d)
  /\ voiceMainButton_listening d = startVoiceBtn_disabled d.
Proof.
  assert (Hrun : forall l w, controls_ok w -> controls_ok (run l w)).
  { induction l as [|ev rest IH]; intros w H; simpl.
    - exact H.
    - apply IH, handle_controls_ok, H. }
  assert (H0 : controls_ok (constructor SpeechRecognition_defined speechSynthesis)).
  { destruct SpeechRecognition_defined; right; reflexivity. }
  pose proof (Hrun evs _ H0) as H. cbv zeta.
  split; [exact H|].
  unfold controls_ok, controls, controls_listening, controls_stopped in H.
  destruct H as [H|H]; injection H as -> _ -> ->; split; reflexivity.
Qed.

(* A page without speech recognition. *)

Lemma handle_deaf (ev : Event) (w : VoiceAssistant) :
  deaf w -> deaf (exec (handle ev) w).
Proof.
  unfold deaf. intros H. destruct ev as [| | |b|results|e| |o| |b]; simpl handle.
  - destruct w as [l sp [rec|] sy conv d cs]; [discriminate H | exact H].
  - destruct w as [l sp [rec|] sy conv d cs]; [discriminate H | reflexivity].
  - exact H.
  - unfold exec, document_click, bind, gets, when.
    destruct (negb b && voicePanel_active (dom w)); exact H.
  - destruct (onresult_frame results w) as [Hk _]. rewrite Hk. exact H.
  - destruct w as [l sp [rec|] sy conv d cs]; [discriminate H | reflexivity].
  - destruct w as [[|] sp [rec|] sy conv d cs]; try discriminate H; exact H.
  - rewrite settled_kept. exact H.
  - exact H.
  - destruct w as [[|] sp r sy conv d cs]; destruct b; exact H.
Qed.

(** X11, a page without speech recognition.  There the controller has no
    recognition object, and whatever events arrive it never listens: the
    flag stays false, the recognition object stays [null], and the controls
    stay in their stopped setting; a click on Start only shows the alert. *)
Theorem without_recognition_never_listens
    (evs : list Event) (speechSynthesis : option SpeechSynthesis) :
  let w := run evs (constructor false speechSynthesis) in
  recognition w = None
  /\ isListening w = false
  /\ controls (dom w) = controls_stopped
  /\ calls_since w (exec startListening w)
     = [Alert (lit "Voice recognition is not supported in your browser. Please use Chrome or Edge.")].
Proof.
  assert (Hrun : forall l w, deaf w -> deaf (run l w)).
  { induction l as [|ev rest IH]; intros w H; simpl.
    - exact H.
    - apply IH, handle_deaf, H. }
  pose proof (Hrun evs (constructor false speechSynthesis) eq_refl) as H.
  cbv zeta. unfold deaf, kept in H.
  pose proof (f_equal (fun k => fst (fst k)) H) as Hl.
  pose proof (f_equal (fun k => snd (fst k)) H) as Hr.
  pose proof (f_equal snd H) as Hc. cbn [fst snd] in Hl, Hr, Hc.
  split; [exact Hr|]. split; [exact Hl|]. split; [exact Hc|].
  apply calls_since_app.
  unfold exec, startListening, bind, gets. rewrite Hr. reflexivity.
Qed.

(* The transcript area. *)

Lemma in_sync_ext (w w' : VoiceAssistant) :
  conversation w' = conversation w ->
  transcriptArea (dom w') = transcriptArea (dom w) ->
  in_sync w -> in_sync w'.
Proof. unfold in_sync. intros -> ->. exact (fun H => H). Qed.

Lemma node_of_pushed_entry (type : jsstring) (text : jsval) :
  node_of_entry (JObject [(lit "role", JString type); (lit "content", text)])
  = [Message (lit "transcript-message " ++ type) (ToString text)].
Proof. reflexivity. Qed.

Lemma push_in_sync (type : jsstring) (text : jsval) (w : VoiceAssistant) :
  in_sync w -> in_sync (push_message type text w).
Proof.
  unfold in_sync. destruct w as [l sp r sy conv [b wf cn tx sb pb area pa] c].
  cbn [push_message conversation dom transcriptArea set_conversation set_dom
       set_transcriptArea].
  intros [[Hc Ha]|[Ha [Hl Hp]]]; right.
  - subst area conv. repeat apply conj; reflexivity.
  - rewrite Hp. repeat apply conj.
    + rewrite flat_map_app, <- Ha. cbn [flat_map]. rewrite node_of_pushed_entry.
      reflexivity.
    + rewrite !length_app, Hl. reflexivity.
    + rewrite existsb_app, Hp. reflexivity.
Qed.

Lemma say_in_sync (type : jsstring) (text : jsval) (w : VoiceAssistant) :
  in_sync w -> in_sync (exec (addMessage type text;; speak text) w).
Proof.
  intros H. destruct (say_frame type text w) as [_ [Hc Hd]].
  apply (@in_sync_ext (push_message type text w)).
  - exact Hc.
  - rewrite Hd. reflexivity.
  - apply push_in_sync. exact H.
Qed.

Lemma handle_in_sync (ev : Event) (w : VoiceAssistant) :
  in_sync w -> in_sync (exec (handle ev) w).
Proof.
  intros H. destruct ev as [| | |b|results|e| |o| |b]; simpl handle.
  - destruct w as [l sp [[c i g [|]]|] sy conv d cs]; exact H.
  - destruct w as [l sp [rec|] sy conv d cs]; exact H.
  - exact H.
  - unfold exec, document_click, bind, gets, when.
    destruct (negb b && voicePanel_active (dom w)); exact H.
  - destruct (onresult_frame results w) as [_ [[Hc Ha]|[text [Hc Ha]]]].
    + exact (@in_sync_ext _ _ Hc Ha H).
    + exact (@in_sync_ext _ _ Hc Ha (@push_in_sync (lit "user") text w H)).
  - destruct w as [l sp [rec|] sy conv d cs]; exact H.
  - destruct w as [[|] sp [[c i g [|]]|] sy conv d cs]; exact H.
  - apply settled_preserves.
    + intros type text v Hv. apply say_in_sync. exact Hv.
    + intros args v Hv. exact Hv.
    + exact H.
  - exact H.
  - destruct w as [[|] sp r sy conv d cs]; destruct b; exact H.
Qed.

(** X12, the transcript area shows the conversation.  Whatever events
    arrive, the transcript area holds the placeholder alone while the
    conversation is empty, and afterwards exactly the message blocks of the
    entries of the conversation, one block per entry in the same order:
    the class of a block ends with the role of its entry, and its text is
    the string made of the content of its entry, which is the content
    itself when that is a string. *)
Theorem transcript_area_shows_conversation
    (evs : list Event) (SpeechRecognition_defined : bool)
    (speechSynthesis : option SpeechSynthesis) :
  let w := run evs (constructor SpeechRecognition_defined speechSynthesis) in
  (conversation w = [] /\ transcriptArea (dom w) = [Placeholder])
  \/ (transcriptArea (dom w) = flat_map node_of_entry (conversation w)
      /\ List.length (transcriptArea (dom w)) = List.length (conversation w)
      /\ existsb is_placeholder (transcriptArea (dom w)) = false).
Proof.
  assert (Hrun : forall l w, in_sync w -> in_sync (run l w)).
  { induction l as [|ev rest IH]; intros w H; simpl.
    - exact H.
    - apply IH, handle_in_sync, H. }
  assert (H0 : in_sync (constructor SpeechRecognition_defined speechSynthesis)).
  { destruct SpeechRecognition_defined; left; split; reflexivity. }
  exact (Hrun evs _ H0).
Qed.

(** The block of a string entry and the block of another entry. *)
Example blocks_of_entries :
  node_of_entry (ai_entry (JString (lit "Hi there!")))
  = [Message (lit "transcript-message ai") (Text (lit "Hi there!"))]
  /\ node_of_entry (ai_entry (JBool true))
     = [Message (lit "transcript-message ai") (Converted (JBool true))].
Proof. split; reflexivity. Qed.

End VoiceInvariants.

(* ================================================================== *)
(** ** Further properties of the screenshot analyzer *)
(* ================================================================== *)

Section CaptureExtras.

Import Capture Samples CaptureLoop.

Lemma capture_calls_since_app (w w' : ScreenshotAnalyzer) (cs : list Call) :
  calls w' = calls w ++ cs -> calls_since w w' = cs.
Proof.
  unfold calls_since. intros ->.
  rewrite skipn_app, skipn_all, Nat.sub_diag. reflexivity.
Qed.

Ltac settle_with r log :=
  exists r, log; split; [reflexivity|]; split; [reflexivity|];
  let w := fresh "w" in
  intros w; destruct w as [? ? [? ? ? ?] ? ?].

Lemma settled_cases (o : FetchOutcome) :
  exists r log,
    is_settled_block r = true
    /\ filter is_fetch log = []
    /\ forall w, analyzeScreenshot_settled o w = (Normal tt, settled_to r log w).
Proof.
  destruct o as [e|[ok st [e|data]]].
  - settle_with (error_block e) (error_log e). reflexivity.
  - destruct ok.
    + settle_with (error_block e) (error_log e). reflexivity.
    + settle_with (error_block (Error "Analysis failed")) (error_log (Error "Analysis failed")).
      reflexivity.
  - destruct ok.
    + destruct (get_prop data "analysis") as [e|field] eqn:Hg.
      * settle_with (error_block e) (error_log e).
        unfold analyzeScreenshot_settled, try_finally, try_catch, analysis_try.
        cbn [resp_ok resp_json negb lift_result].
        unfold bind at 1. unfold ret at 1. unfold bind at 1. rewrite Hg. reflexivity.
      * settle_with (ResultAnalysis
                       (ToString (js_or field (JString (lit "Analysis complete!")))))
                    (@nil Call).
        unfold analyzeScreenshot_settled, try_finally, try_catch, analysis_try.
        cbn [resp_ok resp_json negb lift_result].
        unfold bind at 1. unfold ret at 1. unfold bind at 1. rewrite Hg.
        unfold settled_to. cbn. rewrite app_nil_r. reflexivity.
    + settle_with (error_block (Error "Analysis failed")) (error_log (Error "Analysis failed")).
      reflexivity.
Qed.

(** X13, a settled analysis always finishes.  Whatever the outcome of the
    request, the handler completes normally, the button stops pulsing, and
    the result area holds an analysis or an error block, never the spinner;
    the preview image, the visibility of the modal and the timers are left
    alone, and no further request is made. *)
Theorem settled_analysis_always_finishes (o : FetchOutcome) (w : ScreenshotAnalyzer) :
  let w' := exec (analyzeScreenshot_settled o) w in
  completion (analyzeScreenshot_settled o) w = Normal tt
  /\ screenshotButton_analyzing (dom w') = false
  /\ is_settled_block (analysisResultArea (dom w')) = true
  /\ screenshotPreviewArea (dom w') = screenshotPreviewArea (dom w)
  /\ screenshotModal_active (dom w') = screenshotModal_active (dom w)
  /\ timers w' = timers w
  /\ filter is_fetch (calls_since w w') = [].
Proof.
  destruct (settled_cases o) as [r [log [Hr [Hf E]]]].
  cbv zeta. unfold completion, exec. rewrite E. cbn [fst snd].
  repeat apply conj; try reflexivity; try exact Hr.
  rewrite (@capture_calls_since_app w (settled_to r log w) log eq_refl). exact Hf.
Qed.

(** X14, a response that is not ok.  Whatever its status and body, the
    result area shows the error block with the message "Analysis failed",
    and that error is logged. *)
Theorem analysis_non_ok_shows_failure (resp : Response) (w : ScreenshotAnalyzer) :
  resp_ok resp = false ->
  analyzeScreenshot_settled (FetchResolved resp) w
  = (Normal tt,
     settled_to (ResultError (lit "Analysis failed"))
                [ConsoleError [JString (lit "Analysis error:");
                               error_val (Error "Analysis failed")]] w).
Proof.
  intros H. destruct resp as [ok st body]. simpl in H. subst ok.
  destruct w as [a i [m b pv res] t c]. reflexivity.
Qed.

Lemma analysis_non_ok_shows_failure_witness :
  widget_state
    (exec (analyzeScreenshot_settled
             (FetchResolved
                (mkResponse false 404
                   (inr (JObject [(lit "analysis", JString (lit "A cockpit."))])))))
          (exec (captureScreen (Granted (Encoded first_image))) constructor))
  = ErrorShown.
Proof.
  pose proof (@analysis_non_ok_shows_failure
                (mkResponse false 404
                   (inr (JObject [(lit "analysis", JString (lit "A cockpit."))])))
                (exec (captureScreen (Granted (Encoded first_image))) constructor)
                eq_refl) as H.
  unfold exec at 1. rewrite H. vm_compute. reflexivity.
Defined.



(** X16, a request that fails outright.  When [fetch] rejects, or the body
    of an ok response does not parse, the markup assigned to the result
    area is the error template, and the string substituted into it,
    unescaped, is the message of the error, or the text "Failed to analyze
    screenshot. Please try again." when that message is empty; the error
    is logged. *)
Theorem analysis_error_shows_message_or_default
    (e : JsError) (status : Z) (w : ScreenshotAnalyzer) :
  let shown := settled_to
                 (ResultError
                    match err_message e with
                    | [] => lit "Failed to analyze screenshot. Please try again."
                    | _ :: _ => err_message e
                    end)
                 [ConsoleError [JString (lit "Analysis error:"); error_val e]] w in
  analyzeScreenshot_settled (FetchRejected e) w = (Normal tt, shown)
  /\ analyzeScreenshot_settled (FetchResolved (mkResponse true status (inl e))) w
     = (Normal tt, shown).
Proof.
  destruct w as [a i [m b pv res] t c]. destruct e as [n [|ch msg]]; split; reflexivity.
Qed.

(** X17, closing cancels nothing.  Closing the modal and the settling of the
    pending analysis commute: a response that arrives after the modal was
    closed is written into the hidden modal exactly as it would have been
    into the open one. *)
Theorem close_and_settle_commute (o : FetchOutcome) (w : ScreenshotAnalyzer) :
  exec (analyzeScreenshot_settled o) (exec closeModal w)
  = exec closeModal (exec (analyzeScreenshot_settled o) w)
  /\ displayed (exec (analyzeScreenshot_settled o) (exec closeModal w)) = None.
Proof.
  destruct (settled_cases o) as [r [log [_ [_ E]]]].
  unfold exec. rewrite !E. cbn [snd].
  destruct w as [a i [m b pv res] t c]. split; reflexivity.
Qed.

End CaptureExtras.

Section CaptureRequests.

Import Capture Samples CaptureLoop.

(** X18, one request per captured frame.  [captureScreen] posts to the
    analysis endpoint exactly when a frame was captured and encoded, and
    then exactly once, with that image and the fixed prompt, after the
    tracks of the stream were stopped; for every other answer of the
    platform it makes no request and leaves the page as it was. *)
Theorem capture_requests_once_per_frame (p : DisplayMedia) (w : ScreenshotAnalyzer) :
  let w' := exec (captureScreen p) w in
  completion (captureScreen p) w = Normal tt
  /\ match p with
     | Granted (Encoded imageDataUrl) =>
         calls_since w w'
         = [GetDisplayMedia; StopTracks; Fetch (analysis_request imageDataUrl)]
         /\ get_prop (req_body (analysis_request imageDataUrl)) "image"
            = inr (JString imageDataUrl)
         /\ get_prop (req_body (analysis_request imageDataUrl)) "prompt"
            = inr (JString analysis_prompt)
         /\ dom w' = mkDom true true (Some imageDataUrl) ResultLoading
     | _ =>
         filter is_fetch (calls_since w w') = []
         /\ dom w' = dom w
     end.
Proof.
  destruct (captureScreen_effect p w) as [Hn [Hk [_ Hd]]].
  cbv zeta. split; [exact Hn|].
  rewrite (@capture_calls_since_app _ _ _ Hk).
  destruct p as [|e|[e|e|img]]; try (split; [|exact Hd]).
  - reflexivity.
  - unfold capture_calls, exec, captureScreen, try_catch, bind, throw, call, modify.
    cbn [snd]. destruct (jsstring_eqb (err_name e) NotAllowedError); reflexivity.
  - unfold capture_calls, exec, captureScreen, try_catch, bind, throw, call, modify.
    cbn [snd]. destruct (jsstring_eqb (err_name e) NotAllowedError); reflexivity.
  - unfold capture_calls, exec, captureScreen, try_catch, bind, throw, call, modify.
    cbn [snd]. destruct (jsstring_eqb (err_name e) NotAllowedError); reflexivity.
  - repeat apply conj; reflexivity.
Qed.

(** X19, a capture that fails for another reason than a denial.  On a
    platform without screen capture the only call is the alert that says
    so.  When the capture is rejected, or an exception is thrown while the
    frame is drawn or encoded, with an error whose name is not
    [NotAllowedError], the error is logged and the alert reads "Failed to
    capture screenshot: " followed by the message of the error; when the
    exception comes before the tracks are stopped, they are not stopped. *)
Theorem capture_failure_alerts (e : JsError) (w : ScreenshotAnalyzer) :
  jsstring_eqb (err_name e) NotAllowedError = false ->
  let failure := [ConsoleError [JString (lit "Screenshot error:"); error_val e];
                  Alert (lit "Failed to capture screenshot: " ++ err_message e)] in
  captureScreen Unsupported w
  = (Normal tt, set_calls (calls w ++ [Alert unsupported_message]) w)
  /\ captureScreen (Rejected e) w
     = (Normal tt, set_calls (calls w ++ GetDisplayMedia :: failure) w)
  /\ captureScreen (Granted (DrawFailed e)) w
     = (Normal tt, set_calls (calls w ++ GetDisplayMedia :: failure) w)
  /\ captureScreen (Granted (EncodeFailed e)) w
     = (Normal tt, set_calls (calls w ++ GetDisplayMedia :: StopTracks :: failure) w).
Proof.
  intros Hn. destruct w as [a i d t c]. cbv zeta.
  split; [reflexivity|].
  repeat apply conj;
    unfold captureScreen, try_catch, bind, throw, call, alert, console_error, modify;
    simpl; rewrite Hn; unfold call, modify; simpl; rewrite <- !app_assoc; reflexivity.
Qed.

Lemma capture_failure_alerts_witness :
  let e := mkError (lit "NotFoundError") (lit "no source") in
  calls (exec (captureScreen (Rejected e)) constructor)
  = [GetDisplayMedia;
     ConsoleError [JString (lit "Screenshot error:"); error_val e];
     Alert (lit "Failed to capture screenshot: no source")].
Proof.
  destruct (@capture_failure_alerts (mkError (lit "NotFoundError") (lit "no source"))
              constructor eq_refl) as [_ [H _]].
  unfold exec. rewrite H. reflexivity.
Defined.

(* The modal over any sequence of events. *)

Lemma captureScreen_ok (p : DisplayMedia) (w : ScreenshotAnalyzer) :
  analyzer_ok w -> analyzer_ok (exec (captureScreen p) w).
Proof.
  intros [Hm [Ha Hi]].
  destruct w as [a i d t c]. simpl in Ha, Hi. subst a i.
  destruct p as [|e|[e|e|img]];
    unfold analyzer_ok, exec, captureScreen, try_catch, bind, throw, call, alert,
      console_error, modify; cbn [snd];
    try destruct (jsstring_eqb (err_name e) NotAllowedError);
    repeat apply conj; try reflexivity; exact Hm.
Qed.

Lemma handle_ok (ev : Event) (w : ScreenshotAnalyzer) :
  analyzer_ok w -> analyzer_ok (exec (handle ev) w).
Proof.
  intros H. destruct ev as [p|ck sk key p|o| | |p]; simpl handle.
  - apply captureScreen_ok. exact H.
  - unfold document_keydown, when.
    destruct (ck && sk && jsstring_eqb key (lit "S")); [apply captureScreen_ok|]; exact H.
  - destruct (settled_cases o) as [r [log [Hr [_ E]]]].
    unfold exec. rewrite E. cbn [snd].
    destruct H as [Hm [Ha Hi]]. destruct w as [a i [m b pv res] t c].
    simpl in Ha, Hi. subst a i.
    repeat apply conj; try reflexivity.
    unfold modal_filled in *. cbn in *.
    destruct pv, r, res; try discriminate Hr; try discriminate Hm; try reflexivity;
      exact Hm.
  - destruct H as [Hm [Ha Hi]]. destruct w as [a i [m b pv res] t c].
    simpl in Ha, Hi. subst a i.
    repeat apply conj; try reflexivity.
    unfold modal_filled in *. cbn in *.
    destruct pv, res; try discriminate Hm; try reflexivity; exact Hm.
  - destruct H as [Hm [Ha Hi]]. destruct w as [a i [m b pv res] t c].
    simpl in Ha, Hi. subst a i.
    repeat apply conj; try reflexivity.
    unfold modal_filled in *. cbn in *.
    destruct pv, res; try discriminate Hm; try reflexivity; exact Hm.
  - unfold exec, timer_fires, bind, gets.
    destruct (timers w) as [|[delay []] rest] eqn:Ht; [exact H|].
    unfold modify.
    apply (@captureScreen_ok p (set_timers rest w)).
    destruct H as [Hm [Ha Hi]]. destruct w as [a i d t c]. repeat apply conj; assumption.
Qed.

(** X20, the modal is never shown empty.  Whatever events arrive after the
    page is built, an open modal has a preview image and a result block;
    the spinner is in the result area only while the button pulses; and the
    two fields of the controller, [isAnalyzing] and [captureInterval], keep
    their initial values, so nothing in the controller tells that a
    capture or an analysis is under way. *)
Theorem modal_never_shown_empty (evs : list Event) :
  let w := run evs constructor in
  (screenshotModal_active (dom w) = false
   \/ (exists imageDataUrl, screenshotPreviewArea (dom w) = Some imageDataUrl)
      /\ analysisResultArea (dom w) <> ResultEmpty)
  /\ (analysisResultArea (dom w) <> ResultLoading
      \/ screenshotButton_analyzing (dom w) = true)
  /\ isAnalyzing w = false
  /\ captureInterval w = None.
Proof.
  assert (Hrun : forall l w, analyzer_ok w -> analyzer_ok (run l w)).
  { induction l as [|ev rest IH]; intros w H; simpl.
    - exact H.
    - apply IH, handle_ok, H. }
  assert (H0 : analyzer_ok constructor) by (repeat split).
  destruct (Hrun evs _ H0) as [Hm [Ha Hi]]. cbv zeta.
  split; [|split; [|split; assumption]].
  - unfold modal_filled in Hm.
    destruct (screenshotModal_active (dom (run evs constructor))); [|left; reflexivity].
    right.
    destruct (screenshotPreviewArea (dom (run evs constructor))) as [img|];
      destruct (analysisResultArea (dom (run evs constructor)));
      try discriminate Hm; (split; [exists img; reflexivity | discriminate]).
  - unfold modal_filled in Hm.
    destruct (analysisResultArea (dom (run evs constructor)));
      try (left; discriminate).
    right.
    destruct (screenshotPreviewArea (dom (run evs constructor)));
      [exact Hm | discriminate Hm].
Qed.

End CaptureRequests.

(* ------------------------------------------------------------------ *)
(** *** The synthesiser over any sequence of events *)

Section VoiceSynthesiser.

Import Voice Samples VoiceViews.

Lemma speak_holds_one (text : jsval) (w : VoiceAssistant) :
  holds_at_most_one w ->
  synthesis (exec (speak text) w) = Some (mkSynthesis (Some (mkUtterance text 1 1 1)) []).
Proof.
  intros [sy [Hs Hp]]. destruct w as [l sp r osy conv d c]. simpl in Hs. subst osy.
  destruct sy as [[u|] q]; simpl in Hp; subst q; reflexivity.
Qed.

Lemma say_holds_one (type : jsstring) (text : jsval) (w : VoiceAssistant) :
  holds_at_most_one w -> holds_at_most_one (exec (addMessage type text;; speak text) w).
Proof.
  intros H. unfold exec, bind. rewrite addMessage_push.
  assert (H' : holds_at_most_one (push_message type text w)).
  { destruct H as [sy [Hs Hp]]. exists sy. split; [exact Hs | exact Hp]. }
  pose proof (@speak_holds_one text _ H') as E. unfold exec in E.
  destruct (speak text (push_message type text w)) as [[[]|e] v]; cbn [snd] in *;
    eexists; (split; [exact E | reflexivity]).
Qed.

Lemma handle_holds_one (ev : Event) (w : VoiceAssistant) :
  holds_at_most_one w -> holds_at_most_one (exec (handle ev) w).
Proof.
  intros H. destruct ev as [| | |b|results|e| |o| |b]; simpl handle.
  - destruct w as [l sp [[c i g [|]]|] sy conv d cs]; exact H.
  - unfold holds_at_most_one. rewrite stopListening_synthesis. exact H.
  - exact H.
  - unfold exec, document_click, bind, gets, when.
    destruct (negb b && voicePanel_active (dom w)); exact H.
  - unfold holds_at_most_one. rewrite onresult_exec. cbv zeta.
    destruct (rev results) as [|lastResult rest]; [exact H|].
    destruct (res_isFinal lastResult); [|exact H].
    rewrite processVoiceCommand_synthesis. exact H.
  - unfold holds_at_most_one, recognition_onerror, exec, bind. rewrite console_error_eq.
    match goal with
    | |- context [stopListening ?v] =>
        pose proof (stopListening_synthesis v) as Hs; unfold exec in Hs;
        destruct (stopListening v) as [[a|e'] v']
    end; cbn [snd] in *; rewrite Hs; exact H.
  - destruct w as [[|] sp [[c i g [|]]|] sy conv d cs]; exact H.
  - apply settled_preserves.
    + intros type text v Hv. apply say_holds_one. exact Hv.
    + intros args v Hv. exact Hv.
    + exact H.
  - exact H.
  - destruct H as [sy [Hs Hp]].
    destruct w as [[|] sp r osy conv d cs]; simpl in Hs; subst osy;
      destruct sy as [cur q]; simpl in Hp; subst q; destruct b;
      eexists; split; reflexivity.
Qed.

(** X21, one utterance at a time.  On a page whose synthesiser starts idle
    and speaks an utterance at once when it holds no other, whatever events
    arrive, the synthesiser never holds a queued utterance, and a call of
    [speak] leaves it holding exactly the new utterance: what was being
    spoken is cancelled, and nothing waits behind the new one. *)
Theorem speak_always_leaves_one_utterance
    (evs : list Event) (SpeechRecognition_defined : bool) (text : jsval) :
  let w := run evs (constructor SpeechRecognition_defined (Some (mkSynthesis None []))) in
  (exists sy, synthesis w = Some sy /\ pending sy = [])
  /\ synthesis (exec (speak text) w)
     = Some (mkSynthesis (Some (mkUtterance text 1 1 1)) []).
Proof.
  assert (Hrun : forall l w, holds_at_most_one w -> holds_at_most_one (run l w)).
  { induction l as [|ev rest IH]; intros w H; simpl.
    - exact H.
    - apply IH, handle_holds_one, H. }
  assert (H0 : holds_at_most_one
                 (constructor SpeechRecognition_defined (Some (mkSynthesis None [])))).
  { exists (mkSynthesis None []). destruct SpeechRecognition_defined; split; reflexivity. }
  pose proof (Hrun evs _ H0) as H. cbv zeta.
  split; [exact H | apply speak_holds_one; exact H].
Qed.

End VoiceSynthesiser.
